(** * rovo: the diagnostics engine ([NetworkEngine.runTool] and its probes)

    A shallow embedding of [NetworkEngine] (the engine with [runTool],
    [resolveDNS], [checkPort], [grabBanner], [checkSSL], [checkHeaders],
    [gradeSecurityHeaders], [traceRedirects], [checkBlacklist] and
    [simpleWhois]) together with the part of the Node.js runtime the probes
    are written against: promises that settle once, sockets that emit
    events to registered listeners, and the socket idle timer.

    Conventions.
    - Wall-clock instants are [Z] milliseconds since the epoch; delays and
      timer lengths are [N] milliseconds.
    - [timestamp] holds the instant that [new Date().toISOString()] renders.
    - Strings are byte strings; the engine only inspects ASCII characters.
      On ASCII text the string operations below ([trim], [substring0], ...)
      are exactly the JavaScript ones; statements about the content of
      received text are made for ASCII text. *)

From Stdlib Require Import String Ascii List ZArith NArith Lia Bool DecimalString.
Import ListNotations.

Open Scope string_scope.
Open Scope Z_scope.

(** ** JavaScript values and string operations *)

Module Js.

(** JSON-serialisable values, as the probes build them with object and
    array literals.  [JNaN] is the number [NaN]. *)
#[warnings="-register-all"]
Inductive Json : Type :=
| JNull
| JBool (b : bool)
| JNum (z : Z)
| JNaN
| JStr (s : string)
| JArr (items : list Json)
| JObj (fields : list (string * Json)).

(** A thrown value: an [Error] object, or a bare string as passed to
    [NetworkEngine.error] by the timeout listeners. *)
Inductive Thrown : Type :=
| ErrorObj (message : string)
| StrVal (s : string).

(** [String.prototype.startsWith]. *)
Definition startsWith (s pre : string) : bool := String.prefix pre s.

(** [s.includes(c)] for a one-character needle. *)
Fixpoint includes_char (s : string) (c : ascii) : bool :=
  match s with
  | EmptyString => false
  | String x r => if Ascii.eqb x c then true else includes_char r c
  end.

(** [s.split(c)] for a one-character separator: never empty, the pieces
    contain no separator. *)
Fixpoint split (s : string) (c : ascii) : list string :=
  match s with
  | EmptyString => [EmptyString]
  | String x r =>
      if Ascii.eqb x c then EmptyString :: split r c
      else match split r c with
           | h :: t => String x h :: t
           | [] => [String x EmptyString]
           end
  end.

(** [parts.join(sep)]. *)
Fixpoint join (parts : list string) (sep : string) : string :=
  match parts with
  | [] => ""
  | [p] => p
  | p :: rest => p ++ sep ++ join rest sep
  end.

(** [arr[i]], with [undefined] as [None]. *)
Definition index (parts : list string) (i : nat) : option string :=
  nth_error parts i.

Definition is_space (c : ascii) : bool :=
  match N_of_ascii c with
  | 9%N | 10%N | 11%N | 12%N | 13%N | 32%N => true
  | _ => false
  end.

Fixpoint trimStart (s : string) : string :=
  match s with
  | EmptyString => EmptyString
  | String c r => if is_space c then trimStart r else s
  end.

Definition rev_string (s : string) : string :=
  string_of_list_ascii (List.rev (list_ascii_of_string s)).

(** [String.prototype.trim], on ASCII white space. *)
Definition trim (s : string) : string :=
  rev_string (trimStart (rev_string (trimStart s))).

(** [s.substring(0, n)]. *)
Definition substring0 (n : nat) (s : string) : string := String.substring 0 n s.

(** Byte-lowercase, the normalisation the Fetch [Headers] class applies
    to header names. *)
Definition lower_ascii (c : ascii) : ascii :=
  let n := N_of_ascii c in
  if ((65 <=? n) && (n <=? 90))%N then ascii_of_N (n + 32) else c.

Fixpoint toLowerCase (s : string) : string :=
  match s with
  | EmptyString => EmptyString
  | String c r => String (lower_ascii c) (toLowerCase r)
  end.

(** JavaScript truthiness of a string: only the empty string is falsy. *)
Definition truthy (s : string) : bool :=
  match s with EmptyString => false | _ => true end.

End Js.
Import Js.

(** ** types.ts: the result envelope and the engine options *)

Inductive Status : Type := status_success | status_error | status_timeout.

Record ToolResult : Type := {
  status : Status;
  timestamp : Z;
  data : option Json;
  message : option string;
  grade : option string
}.

Record EngineOptions : Type := {
  recordType : option string;
  prefix : option string;
  port : option Z
}.

Definition no_options : EngineOptions :=
  {| recordType := None; prefix := None; port := None |}.

(** [ApiType] is a union of string literals that is erased at run time (the
    route casts the catalogue JSON to it), so a kind is a string. *)
Definition ApiType := string.

(** ** The Node.js socket runtime the connection probes are written against

    A probe creates one socket, optionally calls [socket.setTimeout], and
    registers listeners.  What the network and the peer do is a [Script]:
    the events they cause, each with the delay since the previous activity
    on the socket; after the last entry the peer stays silent for ever.
    For a host given by name the script starts with [EvLookup], the moment
    the name is resolved (a lookup that fails is an [EvError]); for an IP
    literal there is no lookup.  In the script of a TLS peer,
    [EvSecureConnect cert trusted] is the handshake as the peer completes
    it: the certificate it presents and whether its chain and name pass
    verification apart from the validity period, which the runtime checks
    against the clock (see [verified]). *)

Record Certificate : Type := {
  subject : Json;
  issuer : Json;
  valid_from : string;
  valid_to : string
}.

Inductive SockEvent : Type :=
| EvConnect                                   (* TCP connection established *)
| EvSecureConnect (cert : Certificate) (authorized : bool)
                                              (* TLS handshake completed *)
| EvData (chunk : string)
| EvEnd                                       (* the peer closed its side *)
| EvError (msg : string)                      (* refused, reset, DNS failure, ... *)
| EvLookup.                                   (* the host name was resolved *)

Definition Script := list (N * SockEvent).

Inductive EventName : Type :=
| ev_connect | ev_secureConnect | ev_data | ev_end | ev_close | ev_error | ev_timeout
| ev_lookup.

(** What a listener body does. [act_resolve] is the promise's [resolve]; its
    argument reads the closure variable ([banner], [data]) and the clock. *)
Inductive Action : Type :=
| act_append (chunk : string)
| act_write (payload : string)
| act_destroy
| act_end
| act_resolve (mk : string -> Z -> ToolResult).

Record Listeners : Type := {
  setTimeout : option N;
  on_connect : list Action;
  on_secureConnect : Certificate -> bool -> list Action;
  on_data : string -> list Action;
  on_end : list Action;
  on_close : list Action;
  on_error : string -> list Action;
  on_timeout : list Action
}.

Record Sock : Type := {
  now : Z;                           (* wall clock *)
  buf : string;                      (* the closure variable of the probe *)
  destroyed : bool;
  close_due : bool;                  (* 'close' is scheduled for the next tick *)
  armed : bool;                      (* the idle timer is running *)
  written : list string;
  settled : option (Z * ToolResult); (* instant and value the promise settled with *)
  emitted : list EventName
}.

Definition fresh_socket (t0 : Z) : Sock :=
  {| now := t0; buf := ""; destroyed := false; close_due := false; armed := true;
     written := []; settled := None; emitted := [] |}.

Definition advance (d : N) (s : Sock) : Sock :=
  {| now := now s + Z.of_N d; buf := buf s; destroyed := destroyed s;
     close_due := close_due s; armed := armed s; written := written s;
     settled := settled s; emitted := emitted s |}.

Definition set_armed (b : bool) (s : Sock) : Sock :=
  {| now := now s; buf := buf s; destroyed := destroyed s;
     close_due := close_due s; armed := b; written := written s;
     settled := settled s; emitted := emitted s |}.

Definition note (e : EventName) (s : Sock) : Sock :=
  {| now := now s; buf := buf s; destroyed := destroyed s;
     close_due := close_due s; armed := armed s; written := written s;
     settled := settled s; emitted := emitted s ++ [e] |}.

(** [socket.destroy()]: no further event of the peer is delivered, and
    'close' is emitted once the running listener has returned.  A second
    call does nothing. *)
Definition destroy (s : Sock) : Sock :=
  if destroyed s then s
  else {| now := now s; buf := buf s; destroyed := true; close_due := true;
          armed := false; written := written s; settled := settled s;
          emitted := emitted s |}.

Definition perform (a : Action) (s : Sock) : Sock :=
  match a with
  | act_append chunk =>
      {| now := now s; buf := buf s ++ chunk; destroyed := destroyed s;
         close_due := close_due s; armed := armed s; written := written s;
         settled := settled s; emitted := emitted s |}
  | act_write payload =>
      {| now := now s; buf := buf s; destroyed := destroyed s;
         close_due := close_due s; armed := armed s;
         written := written s ++ [payload];
         settled := settled s; emitted := emitted s |}
  | act_destroy => destroy s
  | act_end => s
  | act_resolve mk =>
      match settled s with
      | Some _ => s                  (* a promise settles once *)
      | None =>
          {| now := now s; buf := buf s; destroyed := destroyed s;
             close_due := close_due s; armed := armed s; written := written s;
             settled := Some (now s, mk (buf s) (now s)); emitted := emitted s |}
      end
  end.

(** Emit an event: run the listener body to completion. *)
Definition emit (e : EventName) (body : list Action) (s : Sock) : Sock :=
  fold_left (fun s a => perform a s) body (note e s).

Definition flush_close (L : Listeners) (s : Sock) : Sock :=
  if close_due s then
    emit ev_close (on_close L)
      {| now := now s; buf := buf s; destroyed := destroyed s; close_due := false;
         armed := armed s; written := written s; settled := settled s;
         emitted := emitted s |}
  else s.

(** Deliver one event of the peer.  Any activity restarts the idle timer;
    after 'end' and after 'error' the runtime destroys the socket itself. *)
Definition deliver (L : Listeners) (ev : SockEvent) (s : Sock) : Sock :=
  let s := set_armed true s in
  match ev with
  | EvConnect => flush_close L (emit ev_connect (on_connect L) s)
  | EvSecureConnect c a =>
      flush_close L (emit ev_secureConnect (on_secureConnect L c a) s)
  | EvData chunk => flush_close L (emit ev_data (on_data L chunk) s)
  | EvEnd => flush_close L (destroy (emit ev_end (on_end L) s))
  | EvError msg => flush_close L (destroy (emit ev_error (on_error L msg) s))
  | EvLookup => flush_close L (emit ev_lookup [] s)   (* no probe listens to it *)
  end.

(** The idle timer: set by [socket.setTimeout], it fires once after that
    long without activity and is started again by the next activity. *)
Definition timer (L : Listeners) (s : Sock) : option N :=
  if armed s then setTimeout L else None.

Definition fire (L : Listeners) (T : N) (s : Sock) : Sock :=
  flush_close L (emit ev_timeout (on_timeout L) (set_armed false (advance T s))).

Fixpoint run (L : Listeners) (script : Script) (s : Sock) : Sock :=
  if destroyed s then s
  else
    match script with
    | [] =>
        match timer L s with
        | Some T => fire L T s
        | None => s                  (* silence, and nothing left to wake us *)
        end
    | (d, ev) :: rest =>
        match timer L s with
        | Some T =>
            if (T <=? d)%N then
              let s1 := fire L T s in
              if destroyed s1 then s1
              else run L rest (deliver L ev (advance (d - T) s1))
            else run L rest (deliver L ev (advance d s))
        | None => run L rest (deliver L ev (advance d s))
        end
    end.

(** The promise of a probe started at [t0] against a peer behaving as
    [script]: [Some (t, r)] when it settles at instant [t] with [r], [None]
    when it never settles. *)
Definition promise_of (L : Listeners) (script : Script) (t0 : Z)
  : option (Z * ToolResult) :=
  settled (run L script (fresh_socket t0)).

(** What the caller has received [horizon] milliseconds after the start. *)
Definition settled_within (horizon : N) (t0 : Z) (p : option (Z * ToolResult))
  : option ToolResult :=
  match p with
  | Some (t, r) => if t <=? t0 + Z.of_N horizon then Some r else None
  | None => None
  end.

(** ** The environment of one request

    Everything the engine obtains from outside its own source: the
    JavaScript built-ins it calls, and the behaviour of the network.  The
    [nat] argument of the network fields is the number of I/O operations
    the request has started so far, so that two identical calls may be
    answered differently. *)

Inductive DnsOp : Type :=
| resolve4 | resolve6 | resolveMx | resolveTxt | resolveNs | resolveSoa
| resolveCname | resolveSrv | resolveCaa | reverse.

Record Response : Type := {
  res_url : string;
  res_status : Z;
  res_headers : list (string * string)   (* names as [Headers] stores them *)
}.

Inductive FetchOutcome : Type :=
| fetch_ok (latency : N) (res : Response)
| fetch_fail (latency : N) (e : Thrown)
| fetch_never.                           (* the server never answers *)

Record Env : Type := {
  parseInt : string -> option Z;         (* [None] is [NaN] *)
  toUpperCase : string -> string;
  Date_parse : string -> option Z;       (* [new Date(s).getTime()], [None] is [NaN] *)
  domainToASCII : string -> string;
  domainToUnicode : string -> string;
  digest_hex : string -> string -> string;   (* algorithm, input *)
  randomUUID : string;
  randomBytes32_hex : string;
  bad_port_message : option Z -> string;
  verify_error : Certificate -> string;   (* the verification error of an untrusted chain *)
  dns_lookup : nat -> DnsOp -> string -> N * (Json + Thrown);
  tcp_peer : nat -> option Z -> string -> Script;
  tls_peer : nat -> string -> Script;
  http_fetch : nat -> string -> FetchOutcome
}.

Inductive IOCall : Type :=
| io_dns (op : DnsOp) (name : string)
| io_tcp (port : option Z) (host : string)
| io_tls (port : Z) (host : string)
| io_fetch (method : string) (url : string).

(** ** Promises and [async] functions *)

Record World : Type := {
  clock : Z;
  io_log : list IOCall                   (* network operations started so far *)
}.

Inductive Outcome (A : Type) : Type :=
| Fulfilled (a : A) (w : World)
| Rejected (e : Thrown) (w : World)      (* also: a [throw] in an async body *)
| Pending (w : World).                   (* the awaited promise never settles *)

Arguments Fulfilled {A} a w.
Arguments Rejected {A} e w.
Arguments Pending {A} w.

Definition Async (A : Type) : Type := World -> Outcome A.

Definition ret {A} (a : A) : Async A := fun w => Fulfilled a w.

Definition throw {A} (e : Thrown) : Async A := fun w => Rejected e w.

Definition bind {A B} (m : Async A) (k : A -> Async B) : Async B :=
  fun w =>
    match m w with
    | Fulfilled a w' => k a w'
    | Rejected e w' => Rejected e w'
    | Pending w' => Pending w'
    end.

(** [try { m } catch (e) { h e }] *)
Definition try_catch {A} (m : Async A) (h : Thrown -> Async A) : Async A :=
  fun w =>
    match m w with
    | Rejected e w' => h e w'
    | o => o
    end.

(** Evaluate an expression that reads the clock ([new Date()], [Date.now()]). *)
Definition at_now {A} (f : Z -> A) : Async A := fun w => Fulfilled (f (clock w)) w.

Declare Scope async_scope.
Delimit Scope async_scope with async.
Notation "x <- m ;; k" := (bind m (fun x => k))
  (at level 61, m at next level, right associativity) : async_scope.
Notation "'await' m ;; k" := (bind m (fun _ => k))
  (at level 61, m at next level, right associativity) : async_scope.

Definition started (c : IOCall) (lat : N) (w : World) : World :=
  {| clock := clock w + Z.of_N lat; io_log := io_log w ++ [c] |}.

Definition outcome_world {A} (o : Outcome A) : World :=
  match o with
  | Fulfilled _ w => w
  | Rejected _ w => w
  | Pending w => w
  end.

Section PromiseAll.
Context {A : Type}.

(** Start every operation at the same instant, in list order. *)
Fixpoint start_all (ps : list (Async A)) (t0 : Z) (log : list IOCall)
  : list (Outcome A) * list IOCall :=
  match ps with
  | [] => ([], log)
  | p :: rest =>
      let o := p {| clock := t0; io_log := log |} in
      let '(os, log') := start_all rest t0 (io_log (outcome_world o)) in
      (o :: os, log')
  end.

(** The earliest rejection, the first one in list order among equals. *)
Fixpoint first_rejection (os : list (Outcome A)) : option (Z * Thrown) :=
  match os with
  | [] => None
  | Rejected e w :: rest =>
      match first_rejection rest with
      | Some (t, e') => if t <? clock w then Some (t, e') else Some (clock w, e)
      | None => Some (clock w, e)
      end
  | _ :: rest => first_rejection rest
  end.

(** The values in list order and the instant the last one arrived;
    [None] when some operation is still pending. *)
Fixpoint all_values (os : list (Outcome A)) (t : Z) : option (list A * Z) :=
  match os with
  | [] => Some ([], t)
  | Fulfilled a w :: rest =>
      match all_values rest (Z.max t (clock w)) with
      | Some (vs, t') => Some (a :: vs, t')
      | None => None
      end
  | _ :: _ => None
  end.

(** [Promise.all]: the results keep the order of the input array, whatever
    the order in which the operations complete. *)
Definition Promise_all (ps : list (Async A)) : Async (list A) :=
  fun w =>
    let '(os, log) := start_all ps (clock w) (io_log w) in
    match first_rejection os with
    | Some (t, e) => Rejected e {| clock := t; io_log := log |}
    | None =>
        match all_values os (clock w) with
        | Some (vs, t) => Fulfilled vs {| clock := t; io_log := log |}
        | None => Pending {| clock := clock w; io_log := log |}
        end
    end.
End PromiseAll.

(** Decimal rendering of a number. *)
Definition decimal (n : N) : string :=
  NilEmpty.string_of_uint (N.to_uint n).

Fixpoint digits_value (s : string) (acc : N) : N :=
  match s with
  | EmptyString => acc
  | String c r =>
      let n := N_of_ascii c in
      if ((48 <=? n) && (n <=? 57))%N then digits_value r (10 * acc + (n - 48))%N
      else acc
  end.

(** An array index in the sense of ECMAScript: a property name that is the
    canonical decimal rendering of an integer below 2^32 - 1. *)
Definition array_index (k : string) : option N :=
  let n := digits_value k 0 in
  if (k =? decimal n)%string && (n <? 4294967295)%N then Some n else None.

(** An object is kept as its field list in enumeration order (the order of
    [JSON.stringify]): array-index names first, in ascending numeric order,
    then the other names in order of creation. *)
Fixpoint obj_put_index (n : N) (k : string) (v : Json)
         (fields : list (string * Json)) : list (string * Json) :=
  match fields with
  | [] => [(k, v)]
  | (k', v') :: rest =>
      match array_index k' with
      | Some n' =>
          if (n =? n')%N then (k, v) :: rest
          else if (n <? n')%N then (k, v) :: (k', v') :: rest
          else (k', v') :: obj_put_index n k v rest
      | None => (k, v) :: (k', v') :: rest
      end
  end.

Fixpoint obj_put_named (k : string) (v : Json) (fields : list (string * Json))
  : list (string * Json) :=
  match fields with
  | [] => [(k, v)]
  | (k', v') :: rest =>
      if String.eqb k' k then (k, v) :: rest else (k', v') :: obj_put_named k v rest
  end.

(** [obj[k] = v] with a string [v] on an object created by [{}]: assigning
    a string to [__proto__] reaches the inherited setter, which ignores
    it; any other name becomes (or updates) an own property. *)
Definition obj_set (k : string) (v : Json) (fields : list (string * Json))
  : list (string * Json) :=
  if (k =? "__proto__")%string then fields
  else
    match array_index k with
    | Some n => obj_put_index n k v fields
    | None => obj_put_named k v fields
    end.

(** [Headers.prototype.has]: the name is byte-lowercased and looked up among
    the stored names. *)
Definition Headers_has (hs : list (string * string)) (name : string) : bool :=
  existsb (fun kv => String.eqb (fst kv) (toLowerCase name)) hs.

Definition CRLF : string := String "013" (String "010" EmptyString).

Definition js_number (n : option Z) : Json :=
  match n with Some z => JNum z | None => JNaN end.

(** Certificate verification, which [tls.connect] performs unless it is
    given [rejectUnauthorized: false]: the error it ends the handshake
    with at instant [t], if any.  The validity period is compared at the
    granularity of a second, the not-after second itself being expired. *)
Definition verification_error (env : Env) (cert : Certificate) (trusted : bool)
           (t : Z) : option string :=
  if negb trusted then Some (verify_error env cert)
  else
    match Date_parse env (valid_from cert) with
    | Some f =>
        if t <? f then Some "certificate is not yet valid"
        else match Date_parse env (valid_to cert) with
             | Some v => if v <=? t then Some "certificate has expired" else None
             | None => None
             end
    | None =>
        match Date_parse env (valid_to cert) with
        | Some v => if v <=? t then Some "certificate has expired" else None
        | None => None
        end
    end.

(** What a TLS socket with verification on emits, given what the peer
    does from instant [t0] on: a completed handshake whose certificate
    fails verification becomes an 'error', and 'secureConnect' is emitted
    for verified certificates only. *)
Fixpoint verified (env : Env) (t0 : Z) (script : Script) : Script :=
  match script with
  | [] => []
  | (d, ev) :: rest =>
      let t := t0 + Z.of_N d in
      match ev with
      | EvSecureConnect cert trusted =>
          match verification_error env cert trusted t with
          | Some msg => (d, EvError msg) :: verified env t rest
          | None => (d, ev) :: verified env t rest
          end
      | _ => (d, ev) :: verified env t rest
      end
  end.

(** [socket.connect] accepts ports [0 .. 65535] and throws on anything else. *)
Definition legal_port (p : option Z) : bool :=
  match p with
  | Some n => (0 <=? n) && (n <? 65536)
  | None => false
  end.

(** ** engine.ts: [NetworkEngine] *)

Module NetworkEngine.
Section Engine.

Variable env : Env.
Local Open Scope async_scope.

(** [success(data, grade)], with the clock reading of [new Date()] last. *)
Definition success (data : Json) (grade : option string) (t : Z) : ToolResult :=
  {| status := status_success; timestamp := t; data := Some data;
     message := None; grade := grade |}.

(** [error(error)]: the message of an [Error], [String(error)] otherwise. *)
Definition error (e : Thrown) (t : Z) : ToolResult :=
  let message := match e with ErrorObj m => m | StrVal s => s end in
  {| status := status_error; timestamp := t; data := None;
     message := Some message; grade := None |}.

(** *** Network primitives *)

Definition dns (op : DnsOp) (name : string) : Async Json :=
  fun w =>
    let '(lat, r) := dns_lookup env (length (io_log w)) op name in
    match r with
    | inl v => Fulfilled v (started (io_dns op name) lat w)
    | inr e => Rejected e (started (io_dns op name) lat w)
    end.

Definition fetch (url : string) (method : string) : Async Response :=
  fun w =>
    match http_fetch env (length (io_log w)) url with
    | fetch_ok lat res => Fulfilled res (started (io_fetch method url) lat w)
    | fetch_fail lat e => Rejected e (started (io_fetch method url) lat w)
    | fetch_never => Pending (started (io_fetch method url) 0 w)
    end.

(** [new Promise(resolve => { const socket = new net.Socket(); ...;
    socket.connect(port, host, ...); ... })] *)
Definition net_socket (L : Listeners) (port : option Z) (host : string)
  : Async ToolResult :=
  fun w =>
    if legal_port port then
      let w1 := started (io_tcp port host) 0 w in
      match promise_of L (tcp_peer env (length (io_log w)) port host) (clock w) with
      | Some (t, r) => Fulfilled r {| clock := t; io_log := io_log w1 |}
      | None => Pending w1
      end
    else Rejected (ErrorObj (bad_port_message env port)) w.

(** [new Promise(resolve => { const socket = tls.connect(443, host,
    { servername: host }, ...); ... })]: no [rejectUnauthorized] is passed,
    so verification is on. *)
Definition tls_connect (L : Listeners) (host : string) : Async ToolResult :=
  fun w =>
    let w1 := started (io_tls 443 host) 0 w in
    match promise_of L (verified env (clock w) (tls_peer env (length (io_log w)) host))
                     (clock w) with
    | Some (t, r) => Fulfilled r {| clock := t; io_log := io_log w1 |}
    | None => Pending w1
    end.

(** *** Implementations *)

Definition resolveDNS (domain : string) (type : string) : Async ToolResult :=
  let T := toUpperCase env type in
  res <- (if T =? "MX" then dns resolveMx domain
          else if T =? "TXT" then dns resolveTxt domain
          else if T =? "NS" then dns resolveNs domain
          else if T =? "SOA" then dns resolveSoa domain
          else if T =? "AAAA" then dns resolve6 domain
          else if T =? "CNAME" then dns resolveCname domain
          else if T =? "SRV" then dns resolveSrv domain
          else if T =? "CAA" then dns resolveCaa domain
          else if T =? "PTR" then dns reverse domain
          else dns resolve4 domain)%string ;;
  at_now (success res None).

Definition checkPort_listeners (host : string) (port : option Z) : Listeners :=
  {| setTimeout := Some 2000%N;
     on_connect :=
       [act_destroy;
        act_resolve (fun _ =>
          success (JObj [("status", JStr "Open"); ("port", js_number port);
                         ("host", JStr host)]) None)];
     on_secureConnect := fun _ _ => [];
     on_data := fun _ => [];
     on_end := [];
     on_close := [];
     on_error := fun msg =>
       [act_destroy;
        act_resolve (fun _ => error (StrVal ("Closed or Blocked: " ++ msg)))];
     on_timeout :=
       [act_destroy;
        act_resolve (fun _ => error (StrVal "Connection Timed Out"))] |}.

Definition checkPort (host : string) (port : option Z) : Async ToolResult :=
  net_socket (checkPort_listeners host port) port host.

Definition grabBanner_listeners (host : string) (port : option Z) : Listeners :=
  {| setTimeout := Some 3000%N;
     on_connect :=
       match port with
       | Some p =>
           if (p =? 80) || (p =? 443)
           then [act_write ("HEAD / HTTP/1.0" ++ CRLF ++ CRLF)] else []
       | None => []
       end;
     on_secureConnect := fun _ _ => [];
     on_data := fun d => [act_append d; act_destroy];
     on_end := [];
     on_close :=
       [act_resolve (fun banner =>
          success (JObj [("banner",
                          JStr (if truthy (trim banner) then trim banner
                                else "Connected (No Banner)"))]) None)];
     on_error := fun msg => [act_resolve (fun _ => error (ErrorObj msg))];
     on_timeout :=
       [act_destroy;
        act_resolve (fun _ => error (StrVal "Timeout waiting for banner"))] |}.

Definition grabBanner (host : string) (port : option Z) : Async ToolResult :=
  net_socket (grabBanner_listeners host port) port host.

(** [Math.floor((new Date(cert.valid_to).getTime() - Date.now()) / 86400000)].
    Both operands are integers below 2^53 in magnitude, so the floating
    point quotient has the same floor as the exact one. *)
Definition days_remaining (cert : Certificate) (t : Z) : Json :=
  match Date_parse env (valid_to cert) with
  | Some v => JNum ((v - t) / 86400000)
  | None => JNaN
  end.

Definition checkSSL_listeners : Listeners :=
  {| setTimeout := None;
     on_connect := [];
     on_secureConnect := fun cert authorized =>
       [act_end;
        act_resolve (fun _ t =>
          {| status := status_success;
             timestamp := t;
             data := Some (JObj [("valid", JBool authorized);
                                 ("subject", subject cert);
                                 ("issuer", issuer cert);
                                 ("valid_from", JStr (valid_from cert));
                                 ("valid_to", JStr (valid_to cert));
                                 ("days_remaining", days_remaining cert t)]);
             message := None;
             grade := None |})];
     on_data := fun _ => [];
     on_end := [];
     on_close := [];
     on_error := fun msg => [act_resolve (fun _ => error (ErrorObj msg))];
     on_timeout := [] |}.

Definition checkSSL (host : string) : Async ToolResult :=
  tls_connect checkSSL_listeners host.

Definition checkHeaders (url : string) : Async ToolResult :=
  let url := if negb (startsWith url "http") then "https://" ++ url else url in
  res <- fetch url "HEAD" ;;
  let headers :=
    fold_left (fun obj kv => obj_set (fst kv) (JStr (snd kv)) obj)
              (res_headers res) [] in
  at_now (success (JObj [("status", JNum (res_status res));
                         ("headers", JObj headers)]) None).

Definition required : list string :=
  ["strict-transport-security"; "content-security-policy";
   "x-frame-options"; "x-content-type-options"].

Definition detail (h st : string) : Json :=
  JObj [("header", JStr h); ("status", JStr st)].

(** The body of [required.forEach(h => ...)], on the pair of the local
    variables [score] and [details]. *)
Definition grade_step (res : Response) (acc : Z * list Json) (h : string)
  : Z * list Json :=
  if Headers_has (res_headers res) h
  then (fst acc, (snd acc ++ [detail h "PASS"])%list)
  else (fst acc - 20, (snd acc ++ [detail h "FAIL"])%list).

Definition grade_headers (res : Response) : Z * list Json :=
  fold_left (grade_step res) required (100, []).

Definition letter (score : Z) : string :=
  if 80 <=? score then "A" else if 60 <=? score then "B" else "F".

Definition gradeSecurityHeaders (domain : string) : Async ToolResult :=
  let domain :=
    if negb (startsWith domain "http") then "https://" ++ domain else domain in
  try_catch
    (res <- fetch domain "HEAD" ;;
     let '(score, details) := grade_headers res in
     at_now (success (JObj [("details", JArr details)]) (Some (letter score))))
    (fun e => at_now (error e)).

Definition traceRedirects (url : string) : Async ToolResult :=
  let url := if negb (startsWith url "http") then "https://" ++ url else url in
  try_catch
    (await fetch url "HEAD" ;;
     res <- fetch url "HEAD" ;;
     let hops :=
       ([JStr url] ++ (if negb (res_url res =? url)%string
                       then [JStr (res_url res)] else []))%list in
     at_now (success (JObj [("hops", JArr hops);
                            ("final", JStr (res_url res));
                            ("status", JNum (res_status res))]) None))
    (fun e => at_now (error e)).

Definition rbls : list string := ["zen.spamhaus.org"; "b.barracudacentral.org"].

Definition rbl_entry (host st : string) : Json :=
  JObj [("rbl", JStr host); ("status", JStr st)].

(** The [async (host) => { try { ... } catch { ... } }] of [checkBlacklist]. *)
Definition rbl_lookup (rev host : string) : Async Json :=
  try_catch
    (await dns resolve4 (rev ++ "." ++ host) ;;
     ret (rbl_entry host "LISTED"))
    (fun _ => ret (rbl_entry host "CLEAN")).

Definition checkBlacklist (ip : string) : Async ToolResult :=
  let rev := join (List.rev (split ip ".")) "." in
  results <- Promise_all (map (rbl_lookup rev) rbls) ;;
  at_now (success (JArr results) None).

Definition simpleWhois_listeners (domain : string) : Listeners :=
  {| setTimeout := Some 5000%N;
     on_connect := [act_write (domain ++ CRLF)];
     on_secureConnect := fun _ _ => [];
     on_data := fun c => [act_append c];
     on_end :=
       [act_resolve (fun data =>
          success (JObj [("raw", JStr (substring0 1500 data))]) None)];
     on_close := [];
     on_error := fun msg => [act_resolve (fun _ => error (ErrorObj msg))];
     on_timeout :=
       [act_destroy; act_resolve (fun _ => error (StrVal "Whois timeout"))] |}.

Definition simpleWhois (domain : string) : Async ToolResult :=
  net_socket (simpleWhois_listeners domain) (Some 43) "whois.iana.org".

(** *** Main execution method *)

(** [options.port || (query.includes(':') ? parseInt(query.split(':')[1]) : dflt)] *)
Definition port_of (options : EngineOptions) (query : string) (dflt : Z)
  : option Z :=
  let parsed :=
    if includes_char query ":"
    then match index (split query ":") 1 with
         | Some p => parseInt env p
         | None => None
         end
    else Some dflt in
  match port options with
  | Some p => if p =? 0 then parsed else Some p
  | None => parsed
  end.

(** [query.includes(':') ? query.split(':')[0] : query] *)
Definition host_of (query : string) : string :=
  if includes_char query ":"
  then match index (split query ":") 0 with Some h => h | None => "" end
  else query.

Definition or_default (o : option string) (dflt : string) : string :=
  match o with
  | Some s => if truthy s then s else dflt
  | None => dflt
  end.

Definition runTool (apiType : ApiType) (query : string) (options : EngineOptions)
  : Async ToolResult :=
  try_catch
    (if negb (truthy query) && negb (apiType =? "my-ip")%string
        && negb (apiType =? "crypto-uuid")%string
     then throw (ErrorObj "Input query is required")
     else
       (if apiType =? "dns" then
          resolveDNS query (or_default (recordType options) "A")
        else if apiType =? "dns-txt" then
          let target :=
            match prefix options with
            | Some p => if truthy p then p ++ "." ++ query else query
            | None => query
            end in
          resolveDNS target "TXT"
        else if apiType =? "dns-ptr" then
          res <- dns reverse query ;; at_now (success res None)
        else if (apiType =? "ping") || (apiType =? "tcp") then
          checkPort (host_of query) (port_of options query 80)
        else if apiType =? "banner" then
          grabBanner (host_of query) (port_of options query 22)
        else if (apiType =? "ssl") || (apiType =? "tls-check") then
          checkSSL query
        else if apiType =? "my-ip" then
          at_now (success (JObj [("message", JStr "Resolved at Edge via Headers")])
                          None)
        else if apiType =? "blacklist" then checkBlacklist query
        else if apiType =? "headers" then checkHeaders query
        else if apiType =? "headers-grade" then gradeSecurityHeaders query
        else if apiType =? "trace-redirect" then traceRedirects query
        else if apiType =? "punycode" then
          at_now (success (JObj [("ascii", JStr (domainToASCII env query));
                                 ("unicode", JStr (domainToUnicode env query))])
                          None)
        else if apiType =? "crypto-hash" then
          at_now (success (JObj [("md5", JStr (digest_hex env "md5" query));
                                 ("sha1", JStr (digest_hex env "sha1" query));
                                 ("sha256", JStr (digest_hex env "sha256" query));
                                 ("sha512", JStr (digest_hex env "sha512" query))])
                          None)
        else if apiType =? "crypto-uuid" then
          at_now (success (JObj [("uuid_v4", JStr (randomUUID env));
                                 ("api_key", JStr (randomBytes32_hex env))])
                          None)
        else if apiType =? "whois" then simpleWhois query
        else
          throw (ErrorObj ("Tool implementation for " ++ apiType ++ " is missing."))
       )%string)
    (fun e => at_now (error e)).

End Engine.
End NetworkEngine.

Import NetworkEngine.

(** ** A laboratory environment

    One concrete network, used to run the engine on examples: a resolver
    that lists 127.0.0.2 in the first blacklist zone only, peers that
    accept a connection and then stay silent, a host with an expired
    certificate, and web servers with some of the security headers. *)

Module Lab.

Definition digit_of (c : ascii) : option Z :=
  let n := N_of_ascii c in
  if ((48 <=? n) && (n <=? 57))%N then Some (Z.of_N n - 48) else None.

Fixpoint digits (s : string) (acc : option Z) : option Z :=
  match s with
  | EmptyString => acc
  | String c r =>
      match digit_of c with
      | Some k => digits r (Some (10 * match acc with Some a => a | None => 0 end + k))
      | None => acc
      end
  end.

Definition upper_ascii (c : ascii) : ascii :=
  let n := N_of_ascii c in
  if ((97 <=? n) && (n <=? 122))%N then ascii_of_N (n - 32) else c.

Fixpoint upper (s : string) : string :=
  match s with
  | EmptyString => EmptyString
  | String c r => String (upper_ascii c) (upper r)
  end.

Definition expired_cert : Certificate :=
  {| subject := JObj [("CN", JStr "expired.test")];
     issuer := JObj [("O", JStr "Lab CA")];
     valid_from := "Jan  1 00:00:00 2019 GMT";
     valid_to := "Jan  1 00:00:00 2020 GMT" |}.

Definition valid_cert : Certificate :=
  {| subject := JObj [("CN", JStr "valid.test")];
     issuer := JObj [("O", JStr "Lab CA")];
     valid_from := "Jan  1 00:00:00 2019 GMT";
     valid_to := "Jan  1 00:00:00 2025 GMT" |}.

Definition three_headers : Response :=
  {| res_url := "https://three.test/";
     res_status := 200;
     res_headers := [("content-security-policy", "default-src 'self'");
                     ("strict-transport-security", "max-age=63072000");
                     ("x-frame-options", "DENY")] |}.

Definition four_headers : Response :=
  {| res_url := "https://four.test/";
     res_status := 200;
     res_headers := [("content-security-policy", "default-src 'self'");
                     ("strict-transport-security", "max-age=63072000");
                     ("x-content-type-options", "nosniff");
                     ("x-frame-options", "DENY")] |}.

Definition one_header : Response :=
  {| res_url := "https://one.test/";
     res_status := 200;
     res_headers := [("x-frame-options", "DENY")] |}.

Definition plain (url : string) : Response :=
  {| res_url := url; res_status := 200; res_headers := [] |}.

Definition env : Env :=
  {| parseInt := fun s => digits s None;
     toUpperCase := upper;
     Date_parse := fun s =>
       if (s =? "Jan  1 00:00:00 2020 GMT")%string then Some 1577836800000
       else if (s =? "Jan  1 00:00:00 2019 GMT")%string then Some 1546300800000
       else if (s =? "Jan  1 00:00:00 2025 GMT")%string then Some 1735689600000
       else None;
     domainToASCII := fun s => s;
     domainToUnicode := fun s => s;
     digest_hex := fun alg s => alg ++ ":" ++ s;
     randomUUID := "123e4567-e89b-42d3-a456-426614174000";
     randomBytes32_hex := "00";
     bad_port_message := fun _ => "Port should be >= 0 and < 65536.";
     verify_error := fun _ => "unable to verify the first certificate";
     dns_lookup := fun _ _ name =>
       if (name =? "2.0.0.127.zen.spamhaus.org")%string
       then (30%N, inl (JArr [JStr "127.0.0.4"]))
       else (10%N, inr (ErrorObj ("queryA ENOTFOUND " ++ name)));
     tcp_peer := fun _ _ host =>
       if (host =? "stalled.test")%string then [(5%N, EvConnect)]
       else if (host =? "closing.test")%string then [(5%N, EvConnect); (20%N, EvEnd)]
       else if (host =? "blackhole.test")%string then []
       else [(1%N, EvError "connect ECONNREFUSED")];
     tls_peer := fun _ host =>
       if (host =? "stalled.test")%string then [(5%N, EvConnect)]
       else if (host =? "expired.test")%string
       then [(2%N, EvLookup); (3%N, EvConnect);
             (40%N, EvSecureConnect expired_cert true)]
       else if (host =? "valid.test")%string
       then [(2%N, EvLookup); (3%N, EvConnect);
             (40%N, EvSecureConnect valid_cert true)]
       else [(1%N, EvError "connect ECONNREFUSED")];
     http_fetch := fun _ url =>
       if (url =? "https://three.test")%string then fetch_ok 80 three_headers
       else if (url =? "https://four.test")%string then fetch_ok 80 four_headers
       else if (url =? "https://one.test")%string then fetch_ok 80 one_header
       else if startsWith url "https://" then fetch_ok 50 (plain url)
       else fetch_fail 0 (ErrorObj "Failed to parse URL") |}.

(** 2024-01-01T00:00:00Z, nothing started yet. *)
Definition w0 : World := {| clock := 1704067200000; io_log := [] |}.

End Lab.

(** ** Security-header grading *)

Definition header_missing (res : Response) (h : string) : bool :=
  negb (Headers_has (res_headers res) h).

Definition missing_count (res : Response) : Z :=
  Z.of_nat (length (filter (header_missing res) required)).

Definition breakdown (res : Response) : list Json :=
  map (fun h => detail h (if Headers_has (res_headers res) h then "PASS" else "FAIL"))
      required.

Definition normalized (url : string) : string :=
  if startsWith url "http" then url else "https://" ++ url.


(** ** HTTP probes: the request that is issued first *)






(** ** The dispatcher's routing table *)

(** The [case] labels of the [switch] in [runTool]. *)
Definition routed : list ApiType :=
  ["dns"; "dns-txt"; "dns-ptr"; "ping"; "tcp"; "banner"; "ssl"; "tls-check";
   "my-ip"; "blacklist"; "headers"; "headers-grade"; "trace-redirect";
   "punycode"; "crypto-hash"; "crypto-uuid"; "whois"].

Definition recognized (kind : ApiType) : bool :=
  existsb (String.eqb kind) routed.

(** [msg] contains [word]. *)
Fixpoint mentions (msg word : string) : bool :=
  startsWith msg word
  || match msg with
     | EmptyString => false
     | String _ r => mentions r word
     end.

(** ** Blacklist zones *)



Definition dot_free (s : string) : Prop := includes_char s "." = false.

(** Decimal rendering of an octet. *)
Definition octet (n : N) : string :=
  NilEmpty.string_of_uint (N.to_uint n).

(** ** Peers *)


(** The peer sends nothing for at least [T] milliseconds (or never again). *)
Definition silent_for (T : N) (script : Script) : Prop :=
  match script with
  | [] => True
  | (d, _) :: _ => (T <= d)%N
  end.

(** ** Deadlines *)

(** The invariant of a connection probe whose 'timeout' listener resolves
    with [error(msg)]: as long as the socket lives the promise is open and
    the timer has not fired; once the timer has fired the promise holds
    that error; and no settled value carries the status 'timeout'. *)
Definition deadline_inv (msg : string) (s : Sock) : Prop :=
  (destroyed s = false ->
   settled s = None /\ close_due s = false /\ ~ In ev_timeout (emitted s))
  /\ (In ev_timeout (emitted s) ->
      exists t, settled s = Some (t, error (StrVal msg) t))
  /\ (forall t r, settled s = Some (t, r) -> status r <> status_timeout).

(** On a socket that is connecting, the first thing to happen (if anything
    happens) is that the connection is established or fails. *)
Definition starts_with_connect_or_error (script : Script) : Prop :=
  match script with
  | [] => True
  | (_, EvConnect) :: _ => True
  | (_, EvError _) :: _ => True
  | _ => False
  end.


(** ** The result envelope, as the engine fills it *)

(** A success carries data and no message; an error carries a message and
    neither data nor grade; the status 'timeout' does not occur. *)
Definition well_formed (r : ToolResult) : Prop :=
  match status r with
  | status_success => data r <> None /\ message r = None
  | status_error => data r = None /\ message r <> None /\ grade r = None
  | status_timeout => False
  end.

(** A well-formed result without a grade. *)
Definition plain (r : ToolResult) : Prop := well_formed r /\ grade r = None.

(** Every value an async call can be fulfilled with satisfies [P]. *)
Definition always {A} (P : A -> Prop) (m : Async A) : Prop :=
  forall w a w', m w = Fulfilled a w' -> P a.

(** Every [resolve] call in a listener body passes a value satisfying [P]. *)
Definition body_resolves (P : ToolResult -> Prop) (body : list Action) : Prop :=
  Forall (fun a => match a with
                   | act_resolve mk => forall b t, P (mk b t)
                   | _ => True
                   end) body.

Definition listeners_resolve (P : ToolResult -> Prop) (L : Listeners) : Prop :=
  body_resolves P (on_connect L)
  /\ (forall c a, body_resolves P (on_secureConnect L c a))
  /\ (forall d, body_resolves P (on_data L d))
  /\ body_resolves P (on_end L)
  /\ body_resolves P (on_close L)
  /\ (forall m, body_resolves P (on_error L m))
  /\ body_resolves P (on_timeout L).

(** The network operations an async call started, given the world it was
    started in. *)
Definition requests {A} (before : World) (o : Outcome A) : list IOCall :=
  skipn (length (io_log before)) (io_log (outcome_world o)).




(** ** route.ts: the HTTP endpoint in front of the engine *)

Module Route.

(** The fields of a catalogue entry that the endpoint reads. *)
Record ToolConfig : Type := {
  slug : string;
  apiType : ApiType;
  inputType : option string;
  recordType : option string;
  prefix : option string
}.

Record NextRequest : Type := {
  searchParams : string -> option string;   (* [searchParams.get], [None] is [null] *)
  headers : string -> option string         (* [req.headers.get] *)
}.

Inductive Body : Type :=
| body_result (r : ToolResult)
| body_object (fields : list (string * Json)).

(** [NextResponse.json(body, { status })] *)
Record NextResponse : Type := {
  body : Body;
  http_status : Z
}.

(** Truthiness of a value that is a string or [null]. *)
Definition present (o : option string) : bool :=
  match o with
  | Some s => truthy s
  | None => false
  end.

(** [a || b] on a nullable string and a string. *)
Definition or_else (o : option string) (dflt : string) : string :=
  match o with
  | Some s => if truthy s then s else dflt
  | None => dflt
  end.

Definition nullable (o : option string) : Json :=
  match o with
  | Some s => JStr s
  | None => JNull
  end.

Section Endpoint.

Variable env : Env.
Variable toolsData : list ToolConfig.
Local Open Scope async_scope.

Definition GET (req : NextRequest) : Async NextResponse :=
  let slug_param := searchParams req "slug" in
  let query := searchParams req "q" in
  if match slug_param with
     | Some s => (s =? "what-is-my-ip")%string
     | None => false
     end
  then
    let ip := or_else (headers req "cf-connecting-ip")
                      (or_else (headers req "x-forwarded-for") "127.0.0.1") in
    at_now (fun t =>
      {| body := body_result
           {| status := status_success;
              timestamp := t;
              data := Some (JObj [("ip", JStr ip);
                                  ("city", JStr (or_else (headers req "cf-ipcity") "Unknown"));
                                  ("country", JStr (or_else (headers req "cf-ipcountry") "Unknown"));
                                  ("asn", JStr (or_else (headers req "cf-as-organization") "Unknown"));
                                  ("lat", nullable (headers req "cf-iplatitude"));
                                  ("lon", nullable (headers req "cf-iplongitude"))]);
              message := None;
              grade := None |};
         http_status := 200 |})
  else if negb (present slug_param) then
    ret {| body := body_object [("status", JStr "error");
                                ("message", JStr "Slug required")];
           http_status := 400 |}
  else
    match find (fun t => (slug t =? or_else slug_param "")%string) toolsData with
    | None =>
        ret {| body := body_object [("status", JStr "error");
                                    ("message", JStr "Tool not found")];
               http_status := 404 |}
    | Some toolConfig =>
        if negb (present query)
           && negb (match inputType toolConfig with
                    | Some i => (i =? "none")%string
                    | None => false
                    end)
        then
          ret {| body := body_object [("status", JStr "error");
                                      ("message", JStr "Query required")];
                 http_status := 400 |}
        else
          result <- runTool env (apiType toolConfig) (or_else query "")
                      (Build_EngineOptions (recordType toolConfig)
                                           (prefix toolConfig) None) ;;
          ret {| body := body_result result; http_status := 200 |}
    end.

End Endpoint.
End Route.

(** A small catalogue for the laboratory. *)
Definition lab_catalogue : list Route.ToolConfig :=
  [ Route.Build_ToolConfig "dmarc-lookup" "dns-txt" None None (Some "_dmarc");
    Route.Build_ToolConfig "port-check" "tcp" (Some "host-port") None None;
    Route.Build_ToolConfig "uuid-generator" "crypto-uuid" (Some "none") None None ].

Definition lab_request (slug q : option string) : Route.NextRequest :=
  {| Route.searchParams := fun k =>
       if (k =? "slug")%string then slug
       else if (k =? "q")%string then q else None;
     Route.headers := fun k =>
       if (k =? "x-forwarded-for")%string then Some "203.0.113.9" else None |}.

(** The laboratory with a few more TCP services: a WHOIS server that
    answers in two chunks, and an SSH server that greets on connect. *)
Definition lab_services : Env :=
  {| parseInt := parseInt Lab.env;
     toUpperCase := toUpperCase Lab.env;
     Date_parse := Date_parse Lab.env;
     domainToASCII := domainToASCII Lab.env;
     domainToUnicode := domainToUnicode Lab.env;
     digest_hex := digest_hex Lab.env;
     randomUUID := randomUUID Lab.env;
     randomBytes32_hex := randomBytes32_hex Lab.env;
     bad_port_message := bad_port_message Lab.env;
     verify_error := verify_error Lab.env;
     dns_lookup := fun n op name =>
       if (name =? "_dmarc.example.org")%string
       then (15%N, inl (JArr [JArr [JStr "v=DMARC1; p=none"]]))
       else dns_lookup Lab.env n op name;
     tcp_peer := fun n port host =>
       if (host =? "whois.iana.org")%string
       then [(8%N, EvLookup); (20%N, EvConnect); (30%N, EvData "% IANA WHOIS server ");
             (4000%N, EvData "refer: whois.verisign-grs.com"); (10%N, EvEnd)]
       else if (host =? "ssh.test")%string
       then [(4%N, EvLookup); (5%N, EvConnect); (12%N, EvData "SSH-2.0-OpenSSH_9.6 ");
             (1%N, EvData "ignored")]
       else tcp_peer Lab.env n port host;
     tls_peer := fun n host =>
       if (host =? "plain.test")%string
       then [(5%N, EvConnect); (9%N, EvError "wrong version number")]
       else tls_peer Lab.env n host;
     http_fetch := http_fetch Lab.env |}.


(** The port the TCP and banner kinds connect to when the target names
    none: the caller's option if it is set and not zero, else the default. *)
Definition chosen_port (options : EngineOptions) (dflt : Z) : Z :=
  match port options with
  | Some p => if p =? 0 then dflt else p
  | None => dflt
  end.

Definition colon_free (s : string) : Prop := includes_char s ":" = false.


(** The result of an async call is stamped with the instant it completed. *)
Definition stamped (m : Async ToolResult) : Prop :=
  forall w r w', m w = Fulfilled r w' -> timestamp r = clock w'.

(** Every [resolve] call in a listener body stamps its value with the
    clock reading it is given. *)
Definition body_stamps (body : list Action) : Prop :=
  Forall (fun a => match a with
                   | act_resolve mk => forall b t, timestamp (mk b t) = t
                   | _ => True
                   end) body.

Definition listeners_stamp (L : Listeners) : Prop :=
  body_stamps (on_connect L)
  /\ (forall c a, body_stamps (on_secureConnect L c a))
  /\ (forall d, body_stamps (on_data L d))
  /\ body_stamps (on_end L)
  /\ body_stamps (on_close L)
  /\ (forall m, body_stamps (on_error L m))
  /\ body_stamps (on_timeout L).

(** The promise, if settled, settled now or earlier with a value stamped
    with the instant of settling. *)
Definition stamp_inv (s : Sock) : Prop :=
  forall t r, settled s = Some (t, r) -> timestamp r = t.



Lemma grade_fold (res : Response) (l : list string) :
  forall sc ds,
    fold_left (grade_step res) l (sc, ds)
    = (sc - 20 * Z.of_nat (length (filter (header_missing res) l)),
       (ds ++ map (fun h => detail h (if Headers_has (res_headers res) h
                                      then "PASS" else "FAIL")) l)%list).
Proof.
  induction l as [|h l IH]; intros sc ds; cbn [fold_left filter map length].
  - rewrite app_nil_r. f_equal. lia.
  - unfold grade_step at 2, header_missing at 1.
    destruct (Headers_has (res_headers res) h); cbn [fst snd negb];
      rewrite IH, <- app_assoc; cbn [app length]; f_equal; lia.
Qed.

Lemma grade_headers_spec (res : Response) :
  grade_headers res = (100 - 20 * missing_count res, breakdown res).
Proof. unfold grade_headers. now rewrite grade_fold. Qed.

Lemma missing_count_range (res : Response) : 0 <= missing_count res <= 4.
Proof.
  unfold missing_count.
  pose proof (filter_length_le (header_missing res) required) as H.
  cbn [required length] in H. lia.
Qed.

(** What [gradeSecurityHeaders] returns once the HEAD request is answered. *)
Lemma gradeSecurityHeaders_answered (env : Env) (domain : string) (w : World)
      (lat : N) (res : Response) :
  http_fetch env (length (io_log w)) (normalized domain) = fetch_ok lat res ->
  gradeSecurityHeaders env domain w
  = Fulfilled
      (success (JObj [("details", JArr (breakdown res))])
               (Some (letter (100 - 20 * missing_count res)))
               (clock w + Z.of_N lat))
      (started (io_fetch "HEAD" (normalized domain)) lat w).
Proof.
  intros H. unfold gradeSecurityHeaders, try_catch, bind, fetch.
  replace (if negb (startsWith domain "http") then "https://" ++ domain else domain)
    with (normalized domain)
    by (unfold normalized; now destruct (startsWith domain "http")).
  rewrite H, grade_headers_spec. reflexivity.
Qed.

(** C4: for every response the grading probe obtains, the score is 100
    minus 20 for each missing header among exactly the four headers
    strict-transport-security, content-security-policy, x-frame-options and
    x-content-type-options; a score of at least 80 gives A, of at least 60
    gives B, anything lower F; the letter is the envelope's top-level
    [grade] and the data payload holds one PASS/FAIL entry per header. *)
Theorem C4_grade_rubric (env : Env) (domain : string) (w : World)
        (lat : N) (res : Response) :
  http_fetch env (length (io_log w)) (normalized domain) = fetch_ok lat res ->
  let score := fst (grade_headers res) in
  required = ["strict-transport-security"; "content-security-policy";
              "x-frame-options"; "x-content-type-options"]
  /\ score = 100 - 20 * Z.of_nat (length (filter (header_missing res) required))
  /\ (80 <= score -> letter score = "A")
  /\ (60 <= score < 80 -> letter score = "B")
  /\ (score < 60 -> letter score = "F")
  /\ exists r w',
       gradeSecurityHeaders env domain w = Fulfilled r w'
       /\ status r = status_success
       /\ grade r = Some (letter score)
       /\ data r
          = Some (JObj [("details",
                JArr (map (fun h =>
                        JObj [("header", JStr h);
                              ("status",
                               JStr (if Headers_has (res_headers res) h
                                     then "PASS" else "FAIL"))])
                      required))]).
Proof.
  intros H score.
  assert (Hs : score = 100 - 20 * missing_count res)
    by (unfold score; now rewrite grade_headers_spec).
  split; [reflexivity|]. split; [exact Hs|].
  repeat split.
  - intros Hge. unfold letter. now rewrite (proj2 (Z.leb_le 80 score) Hge).
  - intros [Hlo Hhi]. unfold letter.
    rewrite (proj2 (Z.leb_gt 80 score) Hhi).
    now rewrite (proj2 (Z.leb_le 60 score) Hlo).
  - intros Hlt. unfold letter.
    rewrite (proj2 (Z.leb_gt 80 score)) by lia.
    now rewrite (proj2 (Z.leb_gt 60 score) Hlt).
  - eexists _, _. rewrite (gradeSecurityHeaders_answered _ _ _ _ _ H).
    split; [reflexivity|]. rewrite Hs. repeat split.
Qed.

Lemma C4_grade_rubric_witness :
  let res := Lab.three_headers in
  fst (grade_headers res) = 80
  /\ exists r w',
       gradeSecurityHeaders Lab.env "three.test" Lab.w0 = Fulfilled r w'
       /\ grade r = Some "A".
Proof.
  destruct (C4_grade_rubric Lab.env "three.test" Lab.w0 80 Lab.three_headers
              eq_refl) as (_ & Hs & _ & _ & _ & r & w' & Hr & _ & Hg & _).
  split; [reflexivity|]. exists r, w'. split; [exact Hr|exact Hg].
Defined.

Lemma C5_three_of_four_is_A :
  missing_count Lab.three_headers = 1
  /\ exists w',
       gradeSecurityHeaders Lab.env "three.test" Lab.w0
       = Fulfilled (success (JObj [("details", JArr (breakdown Lab.three_headers))])
                            (Some "A") (clock Lab.w0 + 80)) w'
       /\ Some "A" <> Some "B".
Proof.
  split; [reflexivity|]. eexists. split; [reflexivity|discriminate].
Qed.

(** C5 (as the code has it): a response missing exactly one of the four
    required headers is graded "A" with score 80; a response with all four
    is graded "A" with score 100; a response missing three or more is
    graded "F". *)
Theorem C5_grades_by_missing (env : Env) (domain : string) (w : World)
        (lat : N) (res : Response) :
  http_fetch env (length (io_log w)) (normalized domain) = fetch_ok lat res ->
  let score := fst (grade_headers res) in
  exists r w',
    gradeSecurityHeaders env domain w = Fulfilled r w'
    /\ status r = status_success
    /\ (missing_count res = 0 -> score = 100 /\ grade r = Some "A")
    /\ (missing_count res = 1 -> score = 80 /\ grade r = Some "A")
    /\ (3 <= missing_count res -> score <= 40 /\ grade r = Some "F").
Proof.
  intros H score. eexists _, _.
  rewrite (gradeSecurityHeaders_answered _ _ _ _ _ H).
  split; [reflexivity|]. split; [reflexivity|].
  unfold score. rewrite grade_headers_spec. cbn [fst success grade].
  pose proof (missing_count_range res) as R.
  repeat split; try lia.
  - now rewrite H0.
  - now rewrite H0.
  - assert (E : missing_count res = 3 \/ missing_count res = 4) by lia.
    destruct E as [E|E]; now rewrite E.
Qed.

Lemma C5_grades_by_missing_witness :
  exists r w',
    gradeSecurityHeaders Lab.env "one.test" Lab.w0 = Fulfilled r w'
    /\ grade r = Some "F".
Proof.
  destruct (C5_grades_by_missing Lab.env "one.test" Lab.w0 80 Lab.one_header
              eq_refl) as (r & w' & Hr & _ & _ & _ & H3).
  exists r, w'. split; [exact Hr|].
  apply H3. vm_compute. discriminate.
Defined.

(** ** HTTP probes: normalisation of the input *)






(** ** The dispatcher *)

Lemma startsWith_app (k q : string) : startsWith (k ++ q) k = true.
Proof.
  unfold startsWith. induction k as [|c k IH]; cbn.
  - now destruct q.
  - destruct (ascii_dec c c); [exact IH | congruence].
Qed.

Lemma mentions_unfold (s k : string) :
  mentions s k
  = startsWith s k
    || match s with EmptyString => false | String _ r => mentions r k end.
Proof. now destruct s. Qed.

Lemma mentions_here (k q : string) : mentions (k ++ q) k = true.
Proof. now rewrite mentions_unfold, startsWith_app. Qed.

Lemma mentions_app (p x k : string) : mentions x k = true -> mentions (p ++ x) k = true.
Proof.
  intros H. induction p as [|c p IH]; [exact H|].
  cbn [append mentions]. rewrite IH. apply orb_true_r.
Qed.

Lemma mentions_inside (p k q : string) : mentions (p ++ k ++ q) k = true.
Proof. apply mentions_app, mentions_here. Qed.

Lemma C9_message_is_not_input_required :
  runTool Lab.env "dns" "" no_options Lab.w0
  = Fulfilled (error (ErrorObj "Input query is required") (clock Lab.w0)) Lab.w0
  /\ message (error (ErrorObj "Input query is required") (clock Lab.w0))
     <> Some "input required".
Proof. split; [reflexivity|discriminate]. Qed.

(** C9 (as the code has it): for every kind other than 'my-ip' and
    'crypto-uuid', [runTool] with an empty target returns a Result with
    status 'error' and message "Input query is required"; no network
    operation is started and the clock has not moved. *)
Theorem C9_empty_target_rejected (env : Env) (kind : ApiType)
        (options : EngineOptions) (w : World) :
  kind <> "my-ip" -> kind <> "crypto-uuid" ->
  exists r,
    runTool env kind "" options w = Fulfilled r w
    /\ status r = status_error
    /\ message r = Some "Input query is required"
    /\ data r = None.
Proof.
  intros H1 H2. unfold runTool, try_catch. cbn [truthy negb andb].
  rewrite (proj2 (String.eqb_neq _ _) H1), (proj2 (String.eqb_neq _ _) H2).
  cbn. eexists. repeat split.
Qed.

Lemma C9_empty_target_rejected_witness :
  exists r,
    runTool Lab.env "whois" "" no_options Lab.w0 = Fulfilled r Lab.w0
    /\ status r = status_error
    /\ message r = Some "Input query is required"
    /\ data r = None.
Proof.
  apply (C9_empty_target_rejected Lab.env "whois" no_options Lab.w0); discriminate.
Defined.

Lemma C3_empty_target_hides_the_kind :
  recognized "health" = false
  /\ runTool Lab.env "health" "" no_options Lab.w0
     = Fulfilled (error (ErrorObj "Input query is required") (clock Lab.w0)) Lab.w0
  /\ mentions "Input query is required" "health" = false.
Proof. repeat split. Qed.

(** C3 (as the code has it): for every kind that is not a [case] label of
    the dispatcher, [runTool] returns (it does not throw) a Result with
    status 'error' without starting any network operation; when the target
    is not empty the message is "Tool implementation for <kind> is
    missing." and so names the kind, and when the target is empty the
    input check comes first and the message is "Input query is required". *)
Theorem C3_unknown_kind_is_error (env : Env) (kind : ApiType) (query : string)
        (options : EngineOptions) (w : World) :
  recognized kind = false ->
  exists r msg,
    runTool env kind query options w = Fulfilled r w
    /\ status r = status_error
    /\ message r = Some msg
    /\ (query <> "" ->
        msg = "Tool implementation for " ++ kind ++ " is missing."
        /\ mentions msg kind = true)
    /\ (query = "" -> msg = "Input query is required").
Proof.
  intros H. unfold recognized, routed in H. cbn [existsb] in H.
  repeat (apply orb_false_iff in H; destruct H as [?E H]).
  unfold runTool, try_catch.
  rewrite E, E0, E1, E2, E3, E4, E5, E6, E7, E8, E9, E10, E11, E12, E13, E14, E15.
  cbn [negb andb orb].
  destruct query as [|c q]; cbn [truthy negb andb throw at_now].
  - eexists _, _. split; [reflexivity|]. split; [reflexivity|].
    split; [reflexivity|]. split; [intros Hq; now elim Hq | reflexivity].
  - eexists _, _. split; [reflexivity|]. split; [reflexivity|].
    split; [reflexivity|]. split; [intros _ | discriminate].
    split; [reflexivity | apply mentions_inside].
Qed.

Lemma C3_unknown_kind_is_error_witness :
  exists r msg,
    runTool Lab.env "smtp-test" "mail.test" no_options Lab.w0 = Fulfilled r Lab.w0
    /\ status r = status_error
    /\ message r = Some msg
    /\ msg = "Tool implementation for smtp-test is missing.".
Proof.
  destruct (C3_unknown_kind_is_error Lab.env "smtp-test" "mail.test" no_options
              Lab.w0 eq_refl) as (r & msg & Hr & Hs & Hm & Hq & _).
  exists r, msg. repeat split; try assumption.
  apply Hq. discriminate.
Defined.

(** ** Blacklist probe *)

Lemma split_piece (a rest : string) (c : ascii) :
  includes_char a c = false ->
  split (a ++ String c rest) c = a :: split rest c.
Proof.
  induction a as [|x a IH]; cbn [append split includes_char]; intros H.
  - now rewrite Ascii.eqb_refl.
  - destruct (Ascii.eqb x c); [discriminate|]. now rewrite (IH H).
Qed.

Lemma split_last (a : string) (c : ascii) :
  includes_char a c = false -> split a c = [a].
Proof.
  induction a as [|x a IH]; cbn [split includes_char]; intros H.
  - reflexivity.
  - destruct (Ascii.eqb x c); [discriminate|]. now rewrite (IH H).
Qed.


Lemma octets_are_dot_free (n : N) : (n < 256)%N -> dot_free (octet n).
Proof.
  intros H.
  assert (A : forallb (fun k => negb (includes_char (octet (N.of_nat k)) "."))
                      (seq 0 256) = true) by (vm_compute; reflexivity).
  rewrite forallb_forall in A.
  specialize (A (N.to_nat n)). rewrite N2Nat.id in A.
  unfold dot_free. apply negb_true_iff, A, in_seq. lia.
Qed.



(** ** The socket runtime: a promise settles once *)








(** ** TLS certificate probe *)


Lemma flush_close_idle (L : Listeners) (s : Sock) :
  close_due s = false -> flush_close L s = s.
Proof. unfold flush_close. now intros ->. Qed.










(** ** Connection probes and their idle timers *)

(** Induction over a run: a property kept by the timer firing and by every
    delivery holds at the end. *)
Lemma run_invariant (L : Listeners) (P : Sock -> Prop) :
  (forall T s, setTimeout L = Some T -> destroyed s = false -> P s ->
               P (fire L T s)) ->
  (forall d ev s, destroyed s = false -> P s -> P (deliver L ev (advance d s))) ->
  forall (script : Script) (s : Sock), P s -> P (run L script s).
Proof.
  intros Hfire Hdel. induction script as [|[d ev] rest IH]; intros s HP; cbn [run].
  - destruct (destroyed s) eqn:Hd; [exact HP|].
    unfold timer. destruct (armed s); [|exact HP].
    destruct (setTimeout L) as [T|] eqn:HT; [|exact HP].
    now apply (Hfire T).
  - destruct (destroyed s) eqn:Hd; [exact HP|].
    unfold timer.
    destruct (armed s); [|now apply IH, Hdel].
    destruct (setTimeout L) as [T|] eqn:HT; [|now apply IH, Hdel].
    destruct (T <=? d)%N; [|now apply IH, Hdel].
    pose proof (Hfire T s eq_refl Hd HP) as HF.
    destruct (destroyed (fire L T s)) eqn:Hd1; [exact HF|].
    now apply IH, Hdel.
Qed.

Lemma deadline_inv_fresh (msg : string) (t0 : Z) : deadline_inv msg (fresh_socket t0).
Proof.
  repeat split; cbn; try reflexivity; try tauto; try discriminate.
Qed.

Ltac open_socket s H :=
  destruct s as [now0 buf0 destroyed0 close0 armed0 written0 settled0 emitted0];
  destruct H as (Hlive & _ & _); cbn [destroyed] in *; subst destroyed0;
  destruct (Hlive eq_refl) as (Hs & Hc & Hno);
  cbn [settled close_due emitted] in Hs, Hc, Hno; subst settled0 close0;
  clear Hlive.

Ltac not_a_timeout Hno :=
  rewrite ?in_app_iff; cbn [In]; intros Hin;
  repeat (destruct Hin as [Hin|Hin]); try discriminate Hin; try contradiction.

Ltac close_inv Hno :=
  unfold deadline_inv; cbn;
  split; [|split];
  [ intros Hlive;
    first [ discriminate Hlive
          | split; [reflexivity|]; split; [reflexivity|]; not_a_timeout Hno ]
  | first [ intros _; eexists; reflexivity
          | intros Hin; exfalso; revert Hin; not_a_timeout Hno ]
  | intros t r Heq;
    first [ discriminate Heq | injection Heq as <- <-; discriminate ] ].

Lemma checkPort_deadline_inv (host : string) (port : option Z) (script : Script)
      (t0 : Z) :
  deadline_inv "Connection Timed Out"
               (run (checkPort_listeners host port) script (fresh_socket t0)).
Proof.
  apply run_invariant; [| |apply deadline_inv_fresh].
  - intros T s _ Hd HP. open_socket s HP. close_inv Hno.
  - intros d ev s Hd HP. open_socket s HP. destruct ev; close_inv Hno.
Qed.

Lemma grabBanner_deadline_inv (host : string) (port : option Z) (script : Script)
      (t0 : Z) :
  deadline_inv "Timeout waiting for banner"
               (run (grabBanner_listeners host port) script (fresh_socket t0)).
Proof.
  apply run_invariant; [| |apply deadline_inv_fresh].
  - intros T s _ Hd HP. open_socket s HP. close_inv Hno.
  - intros d ev s Hd HP. open_socket s HP.
    destruct ev;
      [ unfold deliver, emit; cbn [grabBanner_listeners on_connect];
        destruct port as [p|]; [destruct ((p =? 80) || (p =? 443))|]
      | | | | | ];
      close_inv Hno.
Qed.

Lemma simpleWhois_deadline_inv (domain : string) (script : Script) (t0 : Z) :
  deadline_inv "Whois timeout"
               (run (simpleWhois_listeners domain) script (fresh_socket t0)).
Proof.
  apply run_invariant; [| |apply deadline_inv_fresh].
  - intros T s _ Hd HP. open_socket s HP. close_inv Hno.
  - intros d ev s Hd HP. open_socket s HP. destruct ev; close_inv Hno.
Qed.

Lemma deadline_inv_reports_error (msg : string) (s : Sock) :
  deadline_inv msg s ->
  (In ev_timeout (emitted s) ->
   exists t r,
     settled s = Some (t, r)
     /\ status r = status_error /\ message r = Some msg /\ timestamp r = t)
  /\ (forall t r, settled s = Some (t, r) -> status r <> status_timeout).
Proof.
  intros (_ & Hfired & Hnever). split; [|exact Hnever].
  intros Hin. destruct (Hfired Hin) as (t & Ht).
  exists t, (error (StrVal msg) t). now rewrite Ht.
Qed.

Lemma C2_timer_expiry_has_status_error :
  tcp_peer Lab.env 0 (Some 80) "blackhole.test" = []
  /\ emitted (run (checkPort_listeners "blackhole.test" (Some 80)) []
                  (fresh_socket (clock Lab.w0)))
     = [ev_timeout; ev_close]
  /\ runTool Lab.env "ping" "blackhole.test" no_options Lab.w0
     = Fulfilled
         {| status := status_error;
            timestamp := clock Lab.w0 + 2000;
            data := None;
            message := Some "Connection Timed Out";
            grade := None |}
         {| clock := clock Lab.w0 + 2000;
            io_log := [io_tcp (Some 80) "blackhole.test"] |}
  /\ status_error <> status_timeout.
Proof. repeat split. discriminate. Qed.

(** C2 (as the code has it): for every run of the TCP/ping, banner and
    WHOIS probes in which the probe's own timer fires, the promise settles
    with a Result of status 'error' whose message names the expiry
    ("Connection Timed Out", "Timeout waiting for banner", "Whois
    timeout"); these probes never produce the status 'timeout'. *)
Theorem C2_deadline_expiry_is_an_error (host domain : string) (port : option Z)
        (script : Script) (t0 : Z) :
  let fired L := In ev_timeout (emitted (run L script (fresh_socket t0))) in
  let reports L msg :=
    exists t r,
      promise_of L script t0 = Some (t, r)
      /\ status r = status_error /\ message r = Some msg /\ timestamp r = t in
  let never_timeout L :=
    forall t r, promise_of L script t0 = Some (t, r) -> status r <> status_timeout in
  (fired (checkPort_listeners host port) ->
   reports (checkPort_listeners host port) "Connection Timed Out")
  /\ (fired (grabBanner_listeners host port) ->
      reports (grabBanner_listeners host port) "Timeout waiting for banner")
  /\ (fired (simpleWhois_listeners domain) ->
      reports (simpleWhois_listeners domain) "Whois timeout")
  /\ never_timeout (checkPort_listeners host port)
  /\ never_timeout (grabBanner_listeners host port)
  /\ never_timeout (simpleWhois_listeners domain).
Proof.
  intros fired reports never_timeout. unfold fired, reports, never_timeout, promise_of.
  pose proof (deadline_inv_reports_error _ _
                (checkPort_deadline_inv host port script t0)) as [P1 P2].
  pose proof (deadline_inv_reports_error _ _
                (grabBanner_deadline_inv host port script t0)) as [B1 B2].
  pose proof (deadline_inv_reports_error _ _
                (simpleWhois_deadline_inv domain script t0)) as [W1 W2].
  repeat split; assumption.
Qed.

Lemma C2_deadline_expiry_is_an_error_witness :
  exists t r,
    promise_of (simpleWhois_listeners "example.org") [(40%N, EvConnect)] 0
    = Some (t, r)
    /\ status r = status_error /\ message r = Some "Whois timeout"
    /\ timestamp r = t.
Proof.
  destruct (C2_deadline_expiry_is_an_error "whois.iana.org" "example.org" (Some 43)
              [(40%N, EvConnect)] 0) as (_ & _ & H & _).
  apply H. vm_compute. tauto.
Defined.

(** ** Banner probe *)

Lemma run_destroyed (L : Listeners) (script : Script) (s : Sock) :
  destroyed s = true -> run L script s = s.
Proof. intros H. destruct script as [|[d ev] rest]; cbn [run]; now rewrite H. Qed.

Lemma run_silent_fires (L : Listeners) (T : N) (rest : Script) (s : Sock) :
  destroyed s = false -> armed s = true -> setTimeout L = Some T ->
  silent_for T rest -> destroyed (fire L T s) = true ->
  run L rest s = fire L T s.
Proof.
  intros Hd Ha HT Hsil Hf.
  destruct rest as [|[d ev] rest]; cbn [run]; rewrite Hd; unfold timer;
    rewrite Ha, HT; [reflexivity|].
  cbn [silent_for] in Hsil. rewrite (proj2 (N.leb_le T d) Hsil).
  cbv zeta. now rewrite Hf.
Qed.

Lemma run_early_event (L : Listeners) (T d : N) (ev : SockEvent) (rest : Script)
      (s : Sock) :
  destroyed s = false -> armed s = true -> setTimeout L = Some T -> (d < T)%N ->
  run L ((d, ev) :: rest) s = run L rest (deliver L ev (advance d s)).
Proof.
  intros Hd Ha HT Hlt. cbn [run]. rewrite Hd. unfold timer. rewrite Ha, HT.
  now rewrite (proj2 (N.leb_gt T d) Hlt).
Qed.






(** ** The TLS probe has no timer *)

Lemma checkSSL_stalled_handshake (env : Env) (d : N) (t0 : Z) :
  promise_of (checkSSL_listeners env) [(d, EvConnect)] t0 = None.
Proof. reflexivity. Qed.

(** C1 (what the code does at the failing input): [checkSSL] sets no
    timer, so against a peer that accepts the TCP connection and then
    never answers the TLS handshake, [runTool] for the kind 'ssl' never
    returns a Result: whatever the horizon, nothing has settled. *)
Theorem C1_tls_probe_never_settles (env : Env) (host : string)
        (options : EngineOptions) (w : World) (d : N) :
  host <> "" ->
  tls_peer env (length (io_log w)) host = [(d, EvConnect)] ->
  setTimeout (checkSSL_listeners env) = None
  /\ runTool env "ssl" host options w = Pending (started (io_tls 443 host) 0 w)
  /\ forall horizon : N,
       settled_within horizon (clock w)
         (promise_of (checkSSL_listeners env)
                     (tls_peer env (length (io_log w)) host) (clock w))
       = None.
Proof.
  intros Hhost Hpeer. split; [reflexivity|]. split.
  - unfold runTool, try_catch. destruct host as [|c host]; [now elim Hhost|].
    cbn [truthy negb andb].
    change (("ssl" =? "dns")%string) with false.
    change (("ssl" =? "dns-txt")%string) with false.
    change (("ssl" =? "dns-ptr")%string) with false.
    change (("ssl" =? "ping")%string) with false.
    change (("ssl" =? "tcp")%string) with false.
    change (("ssl" =? "banner")%string) with false.
    change (("ssl" =? "ssl")%string) with true.
    cbn [orb]. unfold checkSSL, tls_connect. rewrite Hpeer. cbn [verified].
    now rewrite checkSSL_stalled_handshake.
  - intros horizon. rewrite Hpeer. now rewrite checkSSL_stalled_handshake.
Qed.

Lemma C1_tls_probe_never_settles_witness :
  runTool Lab.env "ssl" "stalled.test" no_options Lab.w0
  = Pending {| clock := clock Lab.w0; io_log := [io_tls 443 "stalled.test"] |}.
Proof.
  destruct (C1_tls_probe_never_settles Lab.env "stalled.test" no_options Lab.w0 5)
    as (_ & H & _); [discriminate | reflexivity |].
  exact H.
Defined.

(** ** The probes that set a timer do settle *)

Lemma perform_live_armed (a : Action) (s : Sock) :
  (destroyed s = false -> armed s = true) ->
  destroyed (perform a s) = false -> armed (perform a s) = true.
Proof.
  intros H. destruct a; cbn [perform]; try exact H.
  - unfold destroy. destruct (destroyed s) eqn:E; cbn; intros X; congruence.
  - destruct (settled s); exact H.
Qed.

Lemma emit_live_armed (e : EventName) (body : list Action) (s : Sock) :
  (destroyed s = false -> armed s = true) ->
  destroyed (emit e body s) = false -> armed (emit e body s) = true.
Proof.
  unfold emit. intros H.
  assert (H' : destroyed (note e s) = false -> armed (note e s) = true) by exact H.
  revert H'. generalize (note e s). clear H.
  induction body as [|a body IH]; intros s0 H0; cbn [fold_left]; [exact H0|].
  apply IH, perform_live_armed, H0.
Qed.

Lemma flush_close_live_armed (L : Listeners) (s : Sock) :
  (destroyed s = false -> armed s = true) ->
  destroyed (flush_close L s) = false -> armed (flush_close L s) = true.
Proof.
  unfold flush_close. intros H. destruct (close_due s); [|exact H].
  apply emit_live_armed. exact H.
Qed.

Lemma destroy_is_destroyed (s : Sock) : destroyed (destroy s) = true.
Proof. unfold destroy. now destruct (destroyed s) eqn:E. Qed.

Lemma deliver_live_armed (L : Listeners) (ev : SockEvent) (s : Sock) :
  destroyed (deliver L ev s) = false -> armed (deliver L ev s) = true.
Proof.
  unfold deliver.
  destruct ev; apply flush_close_live_armed;
    try (apply emit_live_armed; reflexivity);
    intros E; rewrite destroy_is_destroyed in E; discriminate.
Qed.

(** With a timer set whose listener destroys the socket, every run ends
    with the socket destroyed: the script is finite, and the silence after
    it lets the timer fire. *)
Lemma run_ends_destroyed (L : Listeners) (T : N) :
  setTimeout L = Some T ->
  (forall s, destroyed s = false -> destroyed (fire L T s) = true) ->
  forall (script : Script) (s : Sock),
    (destroyed s = false -> armed s = true) ->
    destroyed (run L script s) = true.
Proof.
  intros HT Hfire. induction script as [|[d ev] rest IH]; intros s Harm; cbn [run].
  - destruct (destroyed s) eqn:Hd; [exact Hd|].
    unfold timer. rewrite (Harm eq_refl), HT. now apply Hfire.
  - destruct (destroyed s) eqn:Hd; [exact Hd|].
    unfold timer. rewrite (Harm eq_refl), HT.
    destruct (T <=? d)%N.
    + now rewrite (Hfire s Hd), (Hfire s Hd).
    + apply IH, deliver_live_armed.
Qed.

Ltac open_any s :=
  destruct s as [now0 buf0 destroyed0 close0 armed0 written0 settled0 emitted0];
  cbn [destroyed] in *; subst destroyed0.

Lemma grabBanner_always_settles (host : string) (port : option Z)
      (script : Script) (t0 : Z) :
  promise_of (grabBanner_listeners host port) script t0 <> None.
Proof.
  unfold promise_of.
  set (P := fun s : Sock => destroyed s = true -> settled s <> None).
  assert (HP : P (run (grabBanner_listeners host port) script (fresh_socket t0))).
  { apply run_invariant; [| |discriminate].
    - intros T s _ Hd _. open_any s. unfold P.
      destruct settled0, close0; cbn; discriminate.
    - intros d ev s Hd _. open_any s. unfold P.
      destruct ev;
        [ unfold deliver, emit; cbn [grabBanner_listeners on_connect];
          destruct port as [p|]; [destruct ((p =? 80) || (p =? 443))|]
        | | | | | ];
        destruct settled0, close0; cbn; discriminate. }
  apply HP, (run_ends_destroyed _ 3000); [reflexivity| |reflexivity].
  intros s Hd. open_any s. now destruct settled0.
Qed.

Lemma simpleWhois_always_settles (domain : string) (script : Script) (t0 : Z) :
  promise_of (simpleWhois_listeners domain) script t0 <> None.
Proof.
  unfold promise_of.
  set (P := fun s : Sock => destroyed s = true -> settled s <> None).
  assert (HP : P (run (simpleWhois_listeners domain) script (fresh_socket t0))).
  { apply run_invariant; [| |discriminate].
    - intros T s _ Hd _. open_any s. unfold P.
      destruct settled0, close0; cbn; discriminate.
    - intros d ev s Hd _. open_any s. unfold P.
      destruct ev; destruct settled0, close0; cbn; discriminate. }
  apply HP, (run_ends_destroyed _ 5000); [reflexivity| |reflexivity].
  intros s Hd. open_any s. now destruct settled0.
Qed.

(** * Further properties of the engine *)

(** ** No fault escapes the dispatcher *)

Lemma try_catch_recovers {A} (m : Async A) (f : Thrown -> Z -> A) (w : World) :
  forall e w', try_catch m (fun e => at_now (f e)) w <> Rejected e w'.
Proof.
  intros e w'. unfold try_catch, at_now. destruct (m w); discriminate.
Qed.

(** [runTool] never throws and never returns a rejected promise, whatever
    the kind, the target, the options and the behaviour of the network. *)
Theorem runTool_never_rejects (env : Env) (kind : ApiType) (query : string)
        (options : EngineOptions) (w : World) :
  forall e w', runTool env kind query options w <> Rejected e w'.
Proof. unfold runTool. apply try_catch_recovers. Qed.

(** ** The envelope invariant *)

Lemma always_weaken {A} (P Q : A -> Prop) (m : Async A) :
  (forall a, P a -> Q a) -> always P m -> always Q m.
Proof. intros H Hm w a w' E. apply H, (Hm w a w' E). Qed.

Lemma always_at_now {A} (P : A -> Prop) (f : Z -> A) :
  (forall t, P (f t)) -> always P (at_now f).
Proof. intros H w a w' [= <- _]. apply H. Qed.

Lemma always_throw {A} (P : A -> Prop) (e : Thrown) : always P (throw e).
Proof. intros w a w' E. discriminate E. Qed.

Lemma always_bind {A B} (P : B -> Prop) (m : Async A) (k : A -> Async B) :
  (forall a, always P (k a)) -> always P (bind m k).
Proof.
  intros H w b w' E. unfold bind in E.
  destruct (m w) as [a w1|e w1|w1]; try discriminate. exact (H a w1 b w' E).
Qed.

Lemma always_try_catch {A} (P : A -> Prop) (m : Async A) (h : Thrown -> Async A) :
  always P m -> (forall e, always P (h e)) -> always P (try_catch m h).
Proof.
  intros Hm Hh w a w' E. unfold try_catch in E.
  destruct (m w) as [a1 w1|e w1|w1] eqn:Em; try discriminate.
  - injection E as <- <-. exact (Hm w a1 w1 Em).
  - exact (Hh e w1 a w' E).
Qed.

Lemma perform_resolves (P : ToolResult -> Prop) (a : Action) (s : Sock) :
  match a with act_resolve mk => forall b t, P (mk b t) | _ => True end ->
  (forall t r, settled s = Some (t, r) -> P r) ->
  forall t r, settled (perform a s) = Some (t, r) -> P r.
Proof.
  intros Ha Hs. destruct a; cbn [perform]; try exact Hs.
  - unfold destroy. destruct (destroyed s); exact Hs.
  - destruct (settled s) eqn:E.
    + intros t r H. apply (Hs t r). now rewrite <- E.
    + cbn [settled]. intros t r [= <- <-]. apply Ha.
Qed.

Lemma emit_resolves (P : ToolResult -> Prop) (e : EventName) (body : list Action)
      (s : Sock) :
  body_resolves P body ->
  (forall t r, settled s = Some (t, r) -> P r) ->
  forall t r, settled (emit e body s) = Some (t, r) -> P r.
Proof.
  unfold emit. intros Hb Hs.
  assert (H' : forall t r, settled (note e s) = Some (t, r) -> P r) by exact Hs.
  revert H'. generalize (note e s). clear Hs.
  induction Hb as [|a body Ha _ IH]; intros s0 H0; cbn [fold_left]; [exact H0|].
  apply IH. now apply perform_resolves.
Qed.

Lemma flush_close_resolves (P : ToolResult -> Prop) (L : Listeners) (s : Sock) :
  listeners_resolve P L ->
  (forall t r, settled s = Some (t, r) -> P r) ->
  forall t r, settled (flush_close L s) = Some (t, r) -> P r.
Proof.
  intros (_ & _ & _ & _ & Hc & _) Hs. unfold flush_close.
  destruct (close_due s); [|exact Hs]. now apply emit_resolves.
Qed.

Lemma destroy_resolves (P : ToolResult -> Prop) (s : Sock) :
  (forall t r, settled s = Some (t, r) -> P r) ->
  forall t r, settled (destroy s) = Some (t, r) -> P r.
Proof. unfold destroy. now destruct (destroyed s). Qed.

Lemma run_resolves (P : ToolResult -> Prop) (L : Listeners) (script : Script)
      (t0 : Z) :
  listeners_resolve P L ->
  forall t r, promise_of L script t0 = Some (t, r) -> P r.
Proof.
  intros HL. unfold promise_of.
  apply (run_invariant L (fun s => forall t r, settled s = Some (t, r) -> P r)).
  - intros T s _ _ Hs. unfold fire.
    apply flush_close_resolves; [exact HL|].
    apply emit_resolves; [apply HL | exact Hs].
  - intros d ev s _ Hs. unfold deliver.
    destruct HL as (H1 & H2 & H3 & H4 & H5 & H6 & H7).
    assert (HL : listeners_resolve P L) by (repeat split; assumption).
    destruct ev; apply flush_close_resolves; try exact HL;
      try apply destroy_resolves; apply emit_resolves;
      try exact Hs; auto; apply Forall_nil.
  - discriminate.
Qed.

Lemma always_net_socket (env : Env) (P : ToolResult -> Prop) (L : Listeners)
      (port : option Z) (host : string) :
  listeners_resolve P L -> always P (net_socket env L port host).
Proof.
  intros HL w r w' E. unfold net_socket in E.
  destruct (legal_port port); [|discriminate].
  destruct (promise_of L _ _) as [[t r1]|] eqn:Ep; [|discriminate].
  injection E as <- _. exact (run_resolves P L _ _ HL t r1 Ep).
Qed.

Lemma always_tls_connect (env : Env) (P : ToolResult -> Prop) (L : Listeners)
      (host : string) :
  listeners_resolve P L -> always P (tls_connect env L host).
Proof.
  intros HL w r w' E. unfold tls_connect in E.
  destruct (promise_of L _ _) as [[t r1]|] eqn:Ep; [|discriminate].
  injection E as <- _. exact (run_resolves P L _ _ HL t r1 Ep).
Qed.

Lemma plain_success (d : Json) (t : Z) : plain (success d None t).
Proof. repeat split. discriminate. Qed.

Lemma plain_error (e : Thrown) (t : Z) : plain (error e t).
Proof. repeat split. discriminate. Qed.

Ltac listeners_plain :=
  repeat split; intros; repeat constructor; intros;
  try apply plain_success; try apply plain_error.

Lemma always_plain_resolveDNS (env : Env) (domain type : string) :
  always plain (resolveDNS env domain type).
Proof.
  unfold resolveDNS. apply always_bind. intros a.
  apply always_at_now, plain_success.
Qed.

Lemma always_plain_checkPort (env : Env) (host : string) (port : option Z) :
  always plain (checkPort env host port).
Proof. apply always_net_socket. listeners_plain. Qed.

Lemma always_plain_grabBanner (env : Env) (host : string) (port : option Z) :
  always plain (grabBanner env host port).
Proof.
  apply always_net_socket. unfold listeners_resolve, grabBanner_listeners.
  cbn [on_connect on_secureConnect on_data on_end on_close on_error on_timeout].
  destruct port as [p|]; [destruct ((p =? 80) || (p =? 443))|]; listeners_plain.
Qed.

Lemma always_plain_checkSSL (env : Env) (host : string) :
  always plain (checkSSL env host).
Proof.
  apply always_tls_connect. listeners_plain.
Qed.

Lemma always_plain_simpleWhois (env : Env) (domain : string) :
  always plain (simpleWhois env domain).
Proof. apply always_net_socket. listeners_plain. Qed.

Lemma always_plain_checkHeaders (env : Env) (url : string) :
  always plain (checkHeaders env url).
Proof.
  unfold checkHeaders. apply always_bind. intros res.
  apply always_at_now, plain_success.
Qed.

Lemma always_plain_traceRedirects (env : Env) (url : string) :
  always plain (traceRedirects env url).
Proof.
  unfold traceRedirects. apply always_try_catch.
  - apply always_bind. intros _. apply always_bind. intros res.
    apply always_at_now, plain_success.
  - intros e. apply always_at_now, plain_error.
Qed.

Lemma always_plain_checkBlacklist (env : Env) (ip : string) :
  always plain (checkBlacklist env ip).
Proof.
  unfold checkBlacklist. apply always_bind. intros results.
  apply always_at_now, plain_success.
Qed.

Lemma always_well_formed_grade (env : Env) (domain : string) :
  always well_formed (gradeSecurityHeaders env domain).
Proof.
  unfold gradeSecurityHeaders. apply always_try_catch.
  - apply always_bind. intros res. destruct (grade_headers res).
    apply always_at_now. intros t. split; [discriminate|reflexivity].
  - intros e. apply always_at_now. intros t. apply plain_error.
Qed.

(** Every Result [runTool] returns is well formed: a success carries data
    and no message, an error carries a message and no data, the status
    'timeout' is never used; and only the kind 'headers-grade' sets a
    grade. *)
Theorem runTool_envelope (env : Env) (kind : ApiType) (query : string)
        (options : EngineOptions) (w w' : World) (r : ToolResult) :
  runTool env kind query options w = Fulfilled r w' ->
  well_formed r
  /\ status r <> status_timeout
  /\ (grade r <> None -> kind = "headers-grade").
Proof.
  intros E.
  set (P := fun r : ToolResult =>
              well_formed r /\ (grade r <> None -> kind = "headers-grade")).
  assert (Hplain : forall m, always plain m -> always P m).
  { intros m. apply always_weaken. intros a [Hw Hg]. split; [exact Hw|].
    intros Hn. now elim Hn. }
  assert (HP : always P (runTool env kind query options)).
  { unfold runTool. apply always_try_catch.
    - repeat match goal with
             | |- always _ (if ?c then _ else _) => destruct c eqn:?
             end;
        try apply always_throw;
        try (apply Hplain;
             first [ apply always_plain_resolveDNS
                   | apply always_plain_checkPort
                   | apply always_plain_grabBanner
                   | apply always_plain_checkSSL
                   | apply always_plain_simpleWhois
                   | apply always_plain_checkHeaders
                   | apply always_plain_traceRedirects
                   | apply always_plain_checkBlacklist
                   | apply always_at_now; intros; apply plain_success
                   | apply always_bind; intros; apply always_at_now; intros;
                     apply plain_success ]).
      apply (always_weaken well_formed); [|apply always_well_formed_grade].
      intros a Hw. split; [exact Hw|]. intros _. now apply String.eqb_eq.
    - intros e. apply Hplain, always_at_now, plain_error. }
  destruct (HP w r w' E) as [Hw Hg]. split; [exact Hw|]. split; [|exact Hg].
  intros Hs. unfold well_formed in Hw. now rewrite Hs in Hw.
Qed.

Lemma runTool_envelope_witness :
  exists r w',
    runTool Lab.env "headers-grade" "three.test" no_options Lab.w0 = Fulfilled r w'
    /\ well_formed r /\ status r <> status_timeout.
Proof.
  eexists _, _. split; [reflexivity|].
  destruct (runTool_envelope Lab.env "headers-grade" "three.test" no_options
              Lab.w0 _ _ eq_refl) as (H1 & H2 & _).
  split; [exact H1 | exact H2].
Defined.

(** ** How the dispatcher routes the connection kinds *)

Lemma runTool_tcp (env : Env) (kind : ApiType) (query : string)
      (options : EngineOptions) :
  kind = "ping" \/ kind = "tcp" -> query <> "" ->
  runTool env kind query options
  = try_catch (checkPort env (host_of query) (port_of env options query 80))
              (fun e => at_now (error e)).
Proof.
  intros [-> | ->] Hq; (destruct query; [now elim Hq | reflexivity]).
Qed.

Lemma runTool_banner (env : Env) (query : string) (options : EngineOptions) :
  query <> "" ->
  runTool env "banner" query options
  = try_catch (grabBanner env (host_of query) (port_of env options query 22))
              (fun e => at_now (error e)).
Proof. intros Hq. destruct query; [now elim Hq | reflexivity]. Qed.

Lemma runTool_whois (env : Env) (query : string) (options : EngineOptions) :
  query <> "" ->
  runTool env "whois" query options
  = try_catch (simpleWhois env query) (fun e => at_now (error e)).
Proof. intros Hq. destruct query; [now elim Hq | reflexivity]. Qed.

Lemma runTool_ssl (env : Env) (kind : ApiType) (query : string)
      (options : EngineOptions) :
  kind = "ssl" \/ kind = "tls-check" -> query <> "" ->
  runTool env kind query options
  = try_catch (checkSSL env query) (fun e => at_now (error e)).
Proof.
  intros [-> | ->] Hq; (destruct query; [now elim Hq | reflexivity]).
Qed.

(** ** The TCP probe *)

Lemma lookup_delivered (L : Listeners) (s : Sock) :
  close_due s = false -> deliver L EvLookup s = note ev_lookup (set_armed true s).
Proof. intros H. unfold deliver, emit. cbn [fold_left]. now apply flush_close_idle. Qed.


Lemma checkPort_settles_from (host : string) (port : option Z) (script : Script)
      (s : Sock) :
  destroyed s = false -> armed s = true -> close_due s = false ->
  settled s = None -> starts_with_connect_or_error script ->
  exists t r,
    settled (run (checkPort_listeners host port) script s) = Some (t, r)
    /\ t <= now s + 2000.
Proof.
  intros Hl Ha Hc Hs Hwf.
  destruct s as [now0 buf0 destroyed0 close0 armed0 written0 settled0 emitted0].
  cbn in Hl, Ha, Hc, Hs. subst.
  destruct script as [|[d ev] rest].
  - eexists _, _. split; [reflexivity|]. cbn. lia.
  - destruct (N.leb_spec 2000 d) as [Hlate|Hearly].
    + rewrite (run_silent_fires _ 2000) by (reflexivity || exact Hlate).
      eexists _, _. split; [reflexivity|]. cbn. lia.
    + rewrite (run_early_event _ 2000) by (reflexivity || assumption).
      destruct ev; try contradiction;
        (rewrite run_destroyed by reflexivity);
        eexists _, _; (split; [reflexivity|]); cbn; lia.
Qed.

(** The 2 s of the TCP probe are an idle timer that the name lookup
    restarts.  For an IP literal (no lookup), if the first thing to happen
    is that the connection is established or fails, or if nothing happens,
    the probe settles no later than 2000 ms after it started.  For a host
    name whose lookup takes [L] ms it settles no later than 2000 ms after
    the lookup, or at 2000 ms if the lookup has not completed by then. *)
Theorem checkPort_deadline_counts_from_the_lookup (host : string)
        (port : option Z) (script : Script) (t0 : Z) :
  (starts_with_connect_or_error script ->
   exists t r,
     promise_of (checkPort_listeners host port) script t0 = Some (t, r)
     /\ t <= t0 + 2000)
  /\ (forall L rest,
        script = (L, EvLookup) :: rest -> starts_with_connect_or_error rest ->
        exists t r,
          promise_of (checkPort_listeners host port) script t0 = Some (t, r)
          /\ t <= t0 + Z.of_N (N.min L 2000) + 2000).
Proof.
  unfold promise_of. split.
  - intros Hwf.
    destruct (checkPort_settles_from host port script (fresh_socket t0))
      as (t & r & H & Ht); try reflexivity; [exact Hwf|].
    exists t, r. split; [exact H | exact Ht].
  - intros L rest -> Hwf.
    destruct (N.leb_spec 2000 L) as [Hlate|Hearly].
    + rewrite (run_silent_fires _ 2000) by (reflexivity || exact Hlate).
      exists (t0 + 2000), (error (StrVal "Connection Timed Out") (t0 + 2000)).
      split; [reflexivity | lia].
    + rewrite (run_early_event _ 2000) by (reflexivity || assumption).
      rewrite lookup_delivered by reflexivity.
      destruct (checkPort_settles_from host port rest
                  (note ev_lookup (set_armed true (advance L (fresh_socket t0)))))
        as (t & r & H & Ht); try reflexivity; [exact Hwf|].
      exists t, r. split; [exact H|].
      cbn [note set_armed advance fresh_socket now] in Ht. lia.
Qed.

Lemma checkPort_deadline_counts_from_the_lookup_witness :
  exists t r,
    promise_of (checkPort_listeners "slow.test" (Some 80))
               [(300%N, EvLookup); (1900%N, EvConnect)] 0
    = Some (t, r)
    /\ t <= 0 + Z.of_N (N.min 300 2000) + 2000.
Proof.
  exact (proj2 (checkPort_deadline_counts_from_the_lookup "slow.test" (Some 80)
                  [(300%N, EvLookup); (1900%N, EvConnect)] 0)
               300%N [(1900%N, EvConnect)] eq_refl I).
Defined.



(** ** The banner and WHOIS probes always answer *)

Lemma net_socket_answers (env : Env) (L : Listeners) (port : option Z)
      (host : string) (w : World) :
  (forall script t0, promise_of L script t0 <> None) ->
  (exists r w', net_socket env L port host w = Fulfilled r w')
  \/ (exists e w', net_socket env L port host w = Rejected e w').
Proof.
  intros H. unfold net_socket. destruct (legal_port port); [|right; eauto].
  destruct (promise_of L _ _) as [[t r]|] eqn:E; [left; eauto|].
  now elim (H _ _ E).
Qed.

(** For the kinds 'banner' and 'whois', [runTool] returns a Result against
    every peer: whatever the peer sends or withholds, some listener settles
    the promise, at the latest when the idle timer fires. *)
Theorem banner_and_whois_always_answer (env : Env) (query : string)
        (options : EngineOptions) (w : World) :
  (exists r w', runTool env "banner" query options w = Fulfilled r w')
  /\ (exists r w', runTool env "whois" query options w = Fulfilled r w').
Proof.
  destruct (string_dec query "") as [-> | Hq].
  - split; eexists _, _; reflexivity.
  - rewrite (runTool_banner env query options Hq), (runTool_whois env query options Hq).
    unfold try_catch, grabBanner, simpleWhois. split.
    + destruct (net_socket_answers env
                  (grabBanner_listeners (host_of query) (port_of env options query 22))
                  (port_of env options query 22) (host_of query) w
                  (grabBanner_always_settles _ _))
        as [(r & w' & ->) | (e & w' & ->)]; eexists _, _; reflexivity.
    + destruct (net_socket_answers env (simpleWhois_listeners query)
                  (Some 43) "whois.iana.org" w
                  (simpleWhois_always_settles _))
        as [(r & w' & ->) | (e & w' & ->)]; eexists _, _; reflexivity.
Qed.

(** ** The WHOIS probe collects until the peer closes *)


Lemma append_empty_r (s : string) : s ++ "" = s.
Proof. induction s as [|c s IH]; cbn; [reflexivity | now rewrite IH]. Qed.








(** ** The banner probe reads one chunk *)





(** ** The TLS probe reports a failed handshake *)



(** ** DNS kinds *)

Lemma requests_started {A} (w : World) (o : Outcome A) (c : IOCall) (lat : N) :
  outcome_world o = started c lat w -> requests w o = [c].
Proof.
  intros E. unfold requests. rewrite E. cbn [started io_log].
  rewrite skipn_app, skipn_all, Nat.sub_diag. reflexivity.
Qed.


Lemma runTool_dns_txt (env : Env) (query : string) (options : EngineOptions) :
  query <> "" ->
  runTool env "dns-txt" query options
  = try_catch
      (resolveDNS env
         match prefix options with
         | Some p => if truthy p then p ++ "." ++ query else query
         | None => query
         end "TXT")
      (fun e => at_now (error e)).
Proof. intros Hq. destruct query; [now elim Hq | reflexivity]. Qed.



(** For the kind 'dns-txt' the record type option is ignored: the TXT
    records of [prefix.target] are looked up when a prefix is configured,
    those of the target itself otherwise. *)
Theorem dns_txt_looks_up_prefixed_name (env : Env) (query : string)
        (options : EngineOptions) (w : World) :
  query <> "" ->
  toUpperCase env "TXT" = "TXT" ->
  (forall p, prefix options = Some p -> p <> "" ->
     requests w (runTool env "dns-txt" query options w)
     = [io_dns resolveTxt (p ++ "." ++ query)])
  /\ (prefix options = None \/ prefix options = Some "" ->
      requests w (runTool env "dns-txt" query options w)
      = [io_dns resolveTxt query]).
Proof.
  intros Hq HT. rewrite (runTool_dns_txt env query options Hq).
  assert (H : forall name,
             requests w (try_catch (resolveDNS env name "TXT")
                                   (fun e => at_now (error e)) w)
             = [io_dns resolveTxt name]).
  { intros name. unfold resolveDNS, try_catch, bind. rewrite HT.
    change (("TXT" =? "MX")%string) with false.
    change (("TXT" =? "TXT")%string) with true. cbv iota.
    unfold dns.
    destruct (dns_lookup env (length (io_log w)) resolveTxt name) as [lat [v|e]];
      now apply (requests_started _ _ _ lat). }
  split.
  - intros p -> Hp. destruct p; [now elim Hp|]. apply H.
  - intros [-> | ->]; apply H.
Qed.

Lemma dns_txt_looks_up_prefixed_name_witness :
  requests Lab.w0
    (runTool lab_services "dns-txt" "example.org"
             {| recordType := Some "MX"; prefix := Some "_dmarc"; port := None |}
             Lab.w0)
  = [io_dns resolveTxt "_dmarc.example.org"].
Proof.
  destruct (dns_txt_looks_up_prefixed_name lab_services "example.org"
              {| recordType := Some "MX"; prefix := Some "_dmarc"; port := None |}
              Lab.w0) as (H & _); [discriminate | reflexivity |].
  apply (H "_dmarc"); [reflexivity | discriminate].
Defined.

(** ** Which host and port the TCP kinds connect to *)

Lemma net_socket_requests (env : Env) (L : Listeners) (port : option Z)
      (host : string) (w : World) (h : Thrown -> Async ToolResult) :
  legal_port port = true ->
  requests w (try_catch (net_socket env L port host) h w) = [io_tcp port host].
Proof.
  intros Hp. unfold try_catch, net_socket. rewrite Hp.
  destruct (promise_of L _ _) as [[t r]|]; reflexivity || idtac.
  - unfold requests. cbn [outcome_world io_log started].
    rewrite skipn_app, skipn_all, Nat.sub_diag. reflexivity.
  - now apply (requests_started _ _ _ 0%N).
Qed.

Lemma host_of_plain (query : string) : colon_free query -> host_of query = query.
Proof. unfold colon_free, host_of. now intros ->. Qed.

Lemma port_of_plain (env : Env) (options : EngineOptions) (query : string) (dflt : Z) :
  colon_free query ->
  port_of env options query dflt = Some (chosen_port options dflt).
Proof.
  unfold colon_free, port_of, chosen_port. intros ->.
  destruct (port options) as [p|]; [|reflexivity].
  now destruct (p =? 0).
Qed.

(** For a target without a colon, 'ping' and 'tcp' connect to the target on
    port 80 and 'banner' on port 22, unless the caller's port option is set
    (and not zero), which then is the port. *)
Theorem tcp_kinds_default_ports (env : Env) (query : string)
        (options : EngineOptions) (w : World) :
  query <> "" -> colon_free query ->
  legal_port (Some (chosen_port options 80)) = true ->
  legal_port (Some (chosen_port options 22)) = true ->
  requests w (runTool env "ping" query options w)
  = [io_tcp (Some (chosen_port options 80)) query]
  /\ requests w (runTool env "tcp" query options w)
     = [io_tcp (Some (chosen_port options 80)) query]
  /\ requests w (runTool env "banner" query options w)
     = [io_tcp (Some (chosen_port options 22)) query].
Proof.
  intros Hq Hc H80 H22.
  rewrite (runTool_tcp env "ping" query options (or_introl eq_refl) Hq).
  rewrite (runTool_tcp env "tcp" query options (or_intror eq_refl) Hq).
  rewrite (runTool_banner env query options Hq).
  unfold checkPort, grabBanner.
  rewrite (host_of_plain query Hc), !port_of_plain by assumption.
  repeat split; now apply net_socket_requests.
Qed.

Lemma tcp_kinds_default_ports_witness :
  requests Lab.w0 (runTool Lab.env "ping" "stalled.test" no_options Lab.w0)
  = [io_tcp (Some 80) "stalled.test"]
  /\ requests Lab.w0 (runTool Lab.env "banner" "stalled.test" no_options Lab.w0)
     = [io_tcp (Some 22) "stalled.test"].
Proof.
  destruct (tcp_kinds_default_ports Lab.env "stalled.test" no_options Lab.w0)
    as (H1 & _ & H3); try reflexivity; try discriminate.
  split; [exact H1 | exact H3].
Defined.

(** For a target of the form host:port the TCP kinds connect to that host
    on the port [parseInt] reads from the text after the first colon (up to
    a second colon, if any); a port option that is set and not zero takes
    precedence over the port in the target. *)
Theorem tcp_kinds_host_and_port (env : Env) (host ptext more : string)
        (options : EngineOptions) (w : World) (n : Z) :
  host <> "" -> colon_free host -> colon_free ptext ->
  parseInt env ptext = Some n ->
  legal_port (Some (chosen_port options n)) = true ->
  (more = "" \/ exists tail, more = ":" ++ tail) ->
  let query := host ++ ":" ++ ptext ++ more in
  requests w (runTool env "tcp" query options w)
  = [io_tcp (Some (chosen_port options n)) host]
  /\ requests w (runTool env "banner" query options w)
     = [io_tcp (Some (chosen_port options n)) host].
Proof.
  intros Hh Hch Hcp Hparse Hlegal Hmore. cbv zeta.
  assert (Hq : host ++ ":" ++ ptext ++ more <> "")
    by (destruct host; [now elim Hh | discriminate]).
  assert (Hinc : includes_char (host ++ ":" ++ ptext ++ more) ":" = true).
  { clear -Hch. induction host as [|c host IH]; [reflexivity|].
    unfold colon_free in Hch. cbn [includes_char append] in *.
    destruct (Ascii.eqb c ":"); [reflexivity|]. now apply IH. }
  assert (Hsplit : exists rest,
             split (host ++ ":" ++ ptext ++ more) ":" = host :: ptext :: rest).
  { cbn [append]. rewrite (split_piece host _ ":" Hch).
    destruct Hmore as [-> | (tail & ->)].
    - rewrite append_empty_r, (split_last ptext ":" Hcp). now exists [].
    - cbn [append]. rewrite (split_piece ptext _ ":" Hcp). eauto. }
  destruct Hsplit as (rest & Hsplit).
  assert (Hhost : host_of (host ++ ":" ++ ptext ++ more) = host)
    by (unfold host_of; now rewrite Hinc, Hsplit).
  assert (Hport : forall dflt,
             port_of env options (host ++ ":" ++ ptext ++ more) dflt
             = Some (chosen_port options n)).
  { intros dflt. unfold port_of, chosen_port. rewrite Hinc, Hsplit.
    cbn [index nth_error]. rewrite Hparse.
    destruct (port options) as [p|]; [|reflexivity]. now destruct (p =? 0). }
  rewrite (runTool_tcp env "tcp" _ options (or_intror eq_refl) Hq).
  rewrite (runTool_banner env _ options Hq).
  unfold checkPort, grabBanner. rewrite Hhost, !Hport.
  split; now apply net_socket_requests.
Qed.

Lemma tcp_kinds_host_and_port_witness :
  requests Lab.w0 (runTool Lab.env "tcp" "stalled.test:8080" no_options Lab.w0)
  = [io_tcp (Some 8080) "stalled.test"].
Proof.
  refine (proj1 (tcp_kinds_host_and_port Lab.env "stalled.test" "8080" ""
                   no_options Lab.w0 8080 _ eq_refl eq_refl eq_refl eq_refl
                   (or_introl eq_refl))).
  discriminate.
Defined.

(** ** HTTP kinds *)








(** The letter of the grading probe in terms of the number of missing
    headers: "A" exactly when at most one of the four is missing, "B"
    exactly when two are, "F" exactly when three or four are. *)
Theorem grade_letter_by_missing_count (env : Env) (domain : string) (w : World)
        (lat : N) (res : Response) :
  http_fetch env (length (io_log w)) (normalized domain) = fetch_ok lat res ->
  exists r w',
    gradeSecurityHeaders env domain w = Fulfilled r w'
    /\ (grade r = Some "A" <-> missing_count res <= 1)
    /\ (grade r = Some "B" <-> missing_count res = 2)
    /\ (grade r = Some "F" <-> 3 <= missing_count res).
Proof.
  intros H. eexists _, _.
  rewrite (gradeSecurityHeaders_answered _ _ _ _ _ H).
  split; [reflexivity|]. cbn [success grade].
  pose proof (missing_count_range res) as R.
  assert (E : missing_count res = 0 \/ missing_count res = 1
              \/ missing_count res = 2 \/ missing_count res = 3
              \/ missing_count res = 4) by lia.
  destruct E as [E | [E | [E | [E | E]]]]; rewrite E; cbn;
    repeat split; intros X; try lia; try discriminate X; reflexivity.
Qed.

Lemma grade_letter_by_missing_count_witness :
  exists r w',
    gradeSecurityHeaders Lab.env "four.test" Lab.w0 = Fulfilled r w'
    /\ grade r = Some "A".
Proof.
  destruct (grade_letter_by_missing_count Lab.env "four.test" Lab.w0 80
              Lab.four_headers eq_refl) as (r & w' & Hr & HA & _).
  exists r, w'. split; [exact Hr|]. apply HA. vm_compute. discriminate.
Defined.

(** ** The blacklist probe on arbitrary input *)




(** ** Splitting and joining *)

Lemma split_nonempty (s : string) (c : ascii) : split s c <> [].
Proof.
  destruct s as [|x r]; cbn [split]; [discriminate|].
  destruct (Ascii.eqb x c); [discriminate|].
  destruct (split r c); discriminate.
Qed.

Lemma join_cons (p : string) (rest : list string) (sep : string) :
  rest <> [] -> join (p :: rest) sep = p ++ sep ++ join rest sep.
Proof. destruct rest; [now intros [] | reflexivity]. Qed.

Lemma join_split (s : string) (c : ascii) :
  join (split s c) (String c "") = s.
Proof.
  induction s as [|x r IH]; cbn [split]; [reflexivity|].
  destruct (Ascii.eqb_spec x c) as [-> | Hx].
  - rewrite join_cons by apply split_nonempty. cbn [append]. now rewrite IH.
  - pose proof (split_nonempty r c) as Hne.
    destruct (split r c) as [|h t]; [now elim Hne|].
    destruct t as [|h' t].
    + cbn [join] in *. now rewrite IH.
    + rewrite join_cons by discriminate. rewrite join_cons in IH by discriminate.
      cbn [append] in *. now rewrite IH.
Qed.

Lemma split_pieces_free (s : string) (c : ascii) :
  Forall (fun p => includes_char p c = false) (split s c).
Proof.
  induction s as [|x r IH]; cbn [split].
  - now constructor.
  - destruct (Ascii.eqb x c) eqn:E; [now constructor|].
    destruct (split r c) as [|h t].
    + constructor; [|constructor]. cbn [includes_char]. now rewrite E.
    + inversion IH as [|? ? Hh Ht]; subst. constructor; [|exact Ht].
      cbn [includes_char]. now rewrite E.
Qed.

Lemma split_join (parts : list string) (c : ascii) :
  parts <> [] ->
  Forall (fun p => includes_char p c = false) parts ->
  split (join parts (String c "")) c = parts.
Proof.
  intros Hne H. induction H as [|p rest Hp Hrest IH]; [now elim Hne|].
  destruct rest as [|q rest].
  - cbn [join]. now apply split_last.
  - rewrite join_cons by discriminate. cbn [append].
    rewrite (split_piece p _ c Hp). f_equal. apply IH. discriminate.
Qed.

(** The octet reversal of the blacklist probe is its own inverse: applied
    twice to any string it gives the string back, and splitting at the
    dots and joining with dots changes nothing. *)
Theorem octet_reversal_is_an_involution (s : string) :
  let reversal x := join (List.rev (split x ".")) "." in
  reversal (reversal s) = s /\ join (split s ".") "." = s.
Proof.
  cbv zeta. split; [|apply join_split].
  rewrite split_join.
  - rewrite rev_involutive. apply join_split.
  - intros E. apply (f_equal (@List.rev string)) in E.
    rewrite rev_involutive in E. now apply (split_nonempty s ".").
  - apply Forall_rev, split_pieces_free.
Qed.

(** ** Kinds that need no network *)



(** ** What the banner probe sends *)

(** On ports other than 80 and 443 the banner probe is passive: whatever
    the peer does, nothing is ever written to the socket. *)
Theorem grabBanner_is_passive_off_http_ports (host : string) (port : option Z)
        (script : Script) (t0 : Z) :
  port <> Some 80 -> port <> Some 443 ->
  written (run (grabBanner_listeners host port) script (fresh_socket t0)) = [].
Proof.
  intros H80 H443.
  assert (Hc : on_connect (grabBanner_listeners host port) = []).
  { cbn [grabBanner_listeners on_connect]. destruct port as [p|]; [|reflexivity].
    destruct (Z.eqb_spec p 80) as [-> | _]; [now elim H80|].
    destruct (Z.eqb_spec p 443) as [-> | _]; [now elim H443|]. reflexivity. }
  apply (run_invariant _ (fun s => written s = [])); [| |reflexivity].
  - intros T s _ _ Hw.
    destruct s as [now0 buf0 destroyed0 close0 armed0 written0 settled0 emitted0].
    cbn in Hw. subst. unfold fire, flush_close, emit.
    destruct settled0, destroyed0, close0; reflexivity.
  - intros d ev s _ Hw.
    destruct s as [now0 buf0 destroyed0 close0 armed0 written0 settled0 emitted0].
    cbn in Hw. subst. unfold deliver, flush_close, emit.
    destruct ev; rewrite ?Hc;
      destruct settled0, destroyed0, close0; reflexivity.
Qed.

Lemma grabBanner_is_passive_off_http_ports_witness :
  written (run (grabBanner_listeners "ssh.test" (Some 22))
               [(5%N, EvConnect); (12%N, EvData "SSH-2.0-OpenSSH_9.6 ")]
               (fresh_socket 0)) = [].
Proof.
  apply grabBanner_is_passive_off_http_ports; discriminate.
Defined.

(** ** Time stamps *)

Lemma perform_stamps (a : Action) (s : Sock) :
  match a with
  | act_resolve mk => forall b t, timestamp (mk b t) = t
  | _ => True
  end ->
  stamp_inv s -> stamp_inv (perform a s).
Proof.
  unfold stamp_inv. intros Ha Hs. destruct a; cbn [perform]; try exact Hs.
  - unfold destroy. destruct (destroyed s); exact Hs.
  - destruct (settled s) eqn:E.
    + intros t r H. apply (Hs t r). now rewrite <- E.
    + cbn [settled]. intros t r [= <- <-]. apply Ha.
Qed.

Lemma emit_stamps (e : EventName) (body : list Action) (s : Sock) :
  body_stamps body -> stamp_inv s -> stamp_inv (emit e body s).
Proof.
  unfold emit. intros Hb Hs.
  assert (H' : stamp_inv (note e s)) by exact Hs.
  revert H'. generalize (note e s). clear Hs.
  induction Hb as [|a body Ha _ IH]; intros s0 H0; cbn [fold_left]; [exact H0|].
  apply IH. now apply perform_stamps.
Qed.

Lemma flush_close_stamps (L : Listeners) (s : Sock) :
  listeners_stamp L -> stamp_inv s -> stamp_inv (flush_close L s).
Proof.
  intros (_ & _ & _ & _ & Hc & _) Hs. unfold flush_close.
  destruct (close_due s); [|exact Hs]. now apply emit_stamps.
Qed.

Lemma destroy_stamps (s : Sock) : stamp_inv s -> stamp_inv (destroy s).
Proof. unfold destroy. now destruct (destroyed s). Qed.

Lemma run_stamps (L : Listeners) (script : Script) (t0 : Z) :
  listeners_stamp L ->
  forall t r, promise_of L script t0 = Some (t, r) -> timestamp r = t.
Proof.
  intros HL. unfold promise_of.
  apply (run_invariant L stamp_inv).
  - intros T s _ _ Hs. unfold fire.
    apply flush_close_stamps; [exact HL|].
    apply emit_stamps; [apply HL | exact Hs].
  - intros d ev s _ Hs. unfold deliver.
    destruct HL as (H1 & H2 & H3 & H4 & H5 & H6 & H7).
    assert (HL : listeners_stamp L) by (repeat split; assumption).
    destruct ev; apply flush_close_stamps; try exact HL;
      try apply destroy_stamps; apply emit_stamps;
      try exact Hs; auto; apply Forall_nil.
  - intros t r E. discriminate E.
Qed.

Lemma stamped_at_now (f : Z -> ToolResult) :
  (forall t, timestamp (f t) = t) -> stamped (at_now f).
Proof. intros H w r w' [= <- <-]. apply H. Qed.

Lemma stamped_bind {A} (m : Async A) (k : A -> Async ToolResult) :
  (forall a, stamped (k a)) -> stamped (bind m k).
Proof.
  intros H w r w' E. unfold bind in E.
  destruct (m w) as [a w1|e w1|w1]; try discriminate. exact (H a w1 r w' E).
Qed.

Lemma stamped_try_catch (m : Async ToolResult) (h : Thrown -> Async ToolResult) :
  stamped m -> (forall e, stamped (h e)) -> stamped (try_catch m h).
Proof.
  intros Hm Hh w r w' E. unfold try_catch in E.
  destruct (m w) as [r1 w1|e w1|w1] eqn:Em; try discriminate.
  - injection E as <- <-. exact (Hm w r1 w1 Em).
  - exact (Hh e w1 r w' E).
Qed.

Lemma stamped_net_socket (env : Env) (L : Listeners) (port : option Z)
      (host : string) :
  listeners_stamp L -> stamped (net_socket env L port host).
Proof.
  intros HL w r w' E. unfold net_socket in E.
  destruct (legal_port port); [|discriminate].
  destruct (promise_of L _ _) as [[t r1]|] eqn:Ep; [|discriminate].
  injection E as <- <-. exact (run_stamps L _ _ HL t r1 Ep).
Qed.

Lemma stamped_tls_connect (env : Env) (L : Listeners) (host : string) :
  listeners_stamp L -> stamped (tls_connect env L host).
Proof.
  intros HL w r w' E. unfold tls_connect in E.
  destruct (promise_of L _ _) as [[t r1]|] eqn:Ep; [|discriminate].
  injection E as <- <-. exact (run_stamps L _ _ HL t r1 Ep).
Qed.

Ltac listeners_stamped :=
  repeat split; intros; repeat constructor; intros; reflexivity.

(** The timestamp of every Result [runTool] returns is the instant at which
    the probe completed (after the network waits), not the instant the
    request arrived. *)
Theorem runTool_stamps_completion_time (env : Env) (kind : ApiType)
        (query : string) (options : EngineOptions) (w w' : World)
        (r : ToolResult) :
  runTool env kind query options w = Fulfilled r w' ->
  timestamp r = clock w'.
Proof.
  revert w r w'. change (stamped (runTool env kind query options)).
  unfold runTool. apply stamped_try_catch.
  - repeat match goal with
           | |- stamped (if ?c then _ else _) => destruct c
           end;
      try (intros w r w' E; discriminate E);
      unfold resolveDNS, checkPort, grabBanner, checkSSL, simpleWhois,
             checkHeaders, gradeSecurityHeaders, traceRedirects, checkBlacklist;
      repeat first
        [ apply stamped_at_now; intros; reflexivity
        | apply stamped_bind; intros
        | apply stamped_try_catch; [|intros]
        | apply stamped_net_socket
        | apply stamped_tls_connect
        | match goal with
          | |- stamped (let '(_, _) := ?x in _) => destruct x
          end ].
    + listeners_stamped.
    + unfold listeners_stamp, grabBanner_listeners.
      cbn [on_connect on_secureConnect on_data on_end on_close on_error on_timeout].
      destruct (port_of env options query 22) as [p|];
        [destruct ((p =? 80) || (p =? 443))|]; listeners_stamped.
    + listeners_stamped.
    + listeners_stamped.
  - intros e. apply stamped_at_now. reflexivity.
Qed.

Lemma runTool_stamps_completion_time_witness :
  exists r,
    runTool Lab.env "banner" "stalled.test" no_options Lab.w0
    = Fulfilled r {| clock := clock Lab.w0 + 3005;
                     io_log := [io_tcp (Some 22) "stalled.test"] |}
    /\ timestamp r = clock Lab.w0 + 3005.
Proof.
  eexists. split; [reflexivity|].
  exact (runTool_stamps_completion_time Lab.env "banner" "stalled.test"
           no_options Lab.w0 _ _ eq_refl).
Defined.

(** ** The header fetch *)









(** ** The HTTP endpoint *)

Import Route.

(** The endpoint never throws: every request gets a response or, if a
    probe never settles, none; no rejected promise leaves [GET]. *)
Theorem GET_never_rejects (env : Env) (toolsData : list ToolConfig)
        (req : NextRequest) (w : World) :
  forall e w', GET env toolsData req w <> Rejected e w'.
Proof.
  intros e w'. unfold GET.
  destruct (match searchParams req "slug" with
            | Some s => (s =? "what-is-my-ip")%string
            | None => false
            end); [discriminate|].
  destruct (negb (present (searchParams req "slug"))); [discriminate|].
  destruct (find _ toolsData) as [cfg|]; [|discriminate].
  match goal with |- (if ?c then _ else _) w <> _ => destruct c end;
    [discriminate|].
  unfold bind.
  match goal with
  | |- match ?m with _ => _ end <> _ =>
      destruct m as [r w1|e1 w1|w1] eqn:Em
  end; try discriminate.
  unfold runTool in Em. now elim (try_catch_recovers _ _ _ _ _ Em).
Qed.

(** A request is refused before the engine is called, with no network
    operation: 400 "Slug required" when the slug is missing or empty, 404
    "Tool not found" when no catalogue entry has the slug, 400 "Query
    required" when the tool takes input and q is missing or empty. *)
Theorem GET_refuses_before_the_engine (env : Env) (toolsData : list ToolConfig)
        (req : NextRequest) (w : World) :
  let refusal code msg :=
    Fulfilled {| body := body_object [("status", JStr "error");
                                      ("message", JStr msg)];
                 http_status := code |} w in
  (present (searchParams req "slug") = false ->
   GET env toolsData req w = refusal 400 "Slug required")
  /\ (forall s,
        searchParams req "slug" = Some s -> s <> "" -> s <> "what-is-my-ip" ->
        (find (fun t => (slug t =? s)%string) toolsData = None ->
         GET env toolsData req w = refusal 404 "Tool not found")
        /\ (forall cfg,
              find (fun t => (slug t =? s)%string) toolsData = Some cfg ->
              present (searchParams req "q") = false ->
              inputType cfg <> Some "none" ->
              GET env toolsData req w = refusal 400 "Query required")).
Proof.
  cbv zeta. split.
  - intros H. unfold GET.
    destruct (searchParams req "slug") as [s|]; [|reflexivity].
    destruct s; [reflexivity | discriminate H].
  - intros s Hs Hne Hip. unfold GET. rewrite Hs.
    rewrite (proj2 (String.eqb_neq _ _) Hip).
    destruct s as [|c s]; [now elim Hne|].
    cbn [present truthy negb or_else]. split.
    + now intros ->.
    + intros cfg -> Hq Hin. rewrite Hq. cbn [negb andb].
      destruct (inputType cfg) as [i|]; [|reflexivity].
      destruct (String.eqb_spec i "none") as [-> | Hi]; [now elim Hin | reflexivity].
Qed.

Lemma GET_refuses_before_the_engine_witness :
  GET Lab.env lab_catalogue (lab_request (Some "port-check") None) Lab.w0
  = Fulfilled {| body := body_object [("status", JStr "error");
                                      ("message", JStr "Query required")];
                 http_status := 400 |} Lab.w0.
Proof.
  destruct (GET_refuses_before_the_engine Lab.env lab_catalogue
              (lab_request (Some "port-check") None) Lab.w0) as (_ & H).
  destruct (H "port-check" eq_refl) as (_ & H'); try discriminate.
  apply (H' _ eq_refl eq_refl). discriminate.
Defined.

(** Whatever the engine returns is delivered with HTTP status 200, an
    error Result included; the statuses 400 and 404 only accompany the
    endpoint's own refusals, which start no network operation. *)
Theorem GET_delivers_results_with_200 (env : Env) (toolsData : list ToolConfig)
        (req : NextRequest) (w w' : World) (resp : NextResponse) :
  GET env toolsData req w = Fulfilled resp w' ->
  match body resp with
  | body_result r => http_status resp = 200
  | body_object _ => (http_status resp = 400 \/ http_status resp = 404) /\ w' = w
  end.
Proof.
  unfold GET.
  destruct (match searchParams req "slug" with
            | Some s => (s =? "what-is-my-ip")%string
            | None => false
            end); [intros [= <- _]; reflexivity|].
  destruct (negb (present (searchParams req "slug")));
    [intros [= <- <-]; cbn; tauto|].
  destruct (find _ toolsData) as [cfg|]; [|intros [= <- <-]; cbn; tauto].
  match goal with |- (if ?c then _ else _) w = _ -> _ => destruct c end;
    [intros [= <- <-]; cbn; tauto|].
  unfold bind.
  match goal with
  | |- match ?m with _ => _ end = _ -> _ => destruct m as [r w1|e1 w1|w1]
  end; try discriminate.
  intros [= <- _]. reflexivity.
Qed.

Lemma GET_delivers_results_with_200_witness :
  exists r w',
    GET Lab.env lab_catalogue
        (lab_request (Some "port-check") (Some "refused.test")) Lab.w0
    = Fulfilled {| body := body_result r; http_status := 200 |} w'
    /\ status r = status_error
    /\ http_status {| body := body_result r; http_status := 200 |} = 200.
Proof.
  eexists _, _. split; [reflexivity|]. split; [reflexivity|].
  exact (GET_delivers_results_with_200 Lab.env lab_catalogue
           (lab_request (Some "port-check") (Some "refused.test"))
           Lab.w0 _ _ eq_refl).
Defined.

(** The slug "what-is-my-ip" is answered from the request headers alone,
    whatever the catalogue and the query: the address is cf-connecting-ip
    if that header is present and not empty, else x-forwarded-for if that
    is, else 127.0.0.1. *)
Theorem GET_my_ip_from_headers (env : Env) (toolsData : list ToolConfig)
        (req : NextRequest) (w : World) :
  searchParams req "slug" = Some "what-is-my-ip" ->
  exists ip others,
    GET env toolsData req w
    = Fulfilled {| body := body_result
                     (success (JObj (("ip", JStr ip) :: others)) None (clock w));
                   http_status := 200 |} w
    /\ (forall a, headers req "cf-connecting-ip" = Some a -> a <> "" -> ip = a)
    /\ (present (headers req "cf-connecting-ip") = false ->
        forall b, headers req "x-forwarded-for" = Some b -> b <> "" -> ip = b)
    /\ (present (headers req "cf-connecting-ip") = false ->
        present (headers req "x-forwarded-for") = false -> ip = "127.0.0.1").
Proof.
  intros Hs. unfold GET. rewrite Hs.
  change (("what-is-my-ip" =? "what-is-my-ip")%string) with true. cbv iota.
  eexists _, _. split; [reflexivity|].
  unfold or_else, present. repeat split.
  - intros a -> Ha. now destruct a.
  - destruct (headers req "cf-connecting-ip") as [a|];
      [destruct a; [|discriminate]|]; intros _ b -> Hb; now destruct b.
  - destruct (headers req "cf-connecting-ip") as [a|];
      [destruct a; [|discriminate]|]; intros _;
      (destruct (headers req "x-forwarded-for") as [b|];
       [destruct b; [|discriminate]|]); reflexivity.
Qed.

Lemma GET_my_ip_from_headers_witness :
  exists others,
    GET Lab.env lab_catalogue (lab_request (Some "what-is-my-ip") None) Lab.w0
    = Fulfilled {| body := body_result
                     (success (JObj (("ip", JStr "203.0.113.9") :: others)) None
                              (clock Lab.w0));
                   http_status := 200 |} Lab.w0.
Proof.
  destruct (GET_my_ip_from_headers Lab.env lab_catalogue
              (lab_request (Some "what-is-my-ip") None) Lab.w0 eq_refl)
    as (ip & others & H & _ & Hx & _).
  exists others. rewrite H.
  now rewrite (Hx eq_refl "203.0.113.9" eq_refl ltac:(discriminate)).
Defined.
